(** * auto-trader: rule triggering, safety gate, backtest statistics and
      the trading loop

    A shallow embedding of the decision logic of the repository:

    - [trader/rules/models.py]  : [Rule], [Rule.check], [Rule.to_dict],
      [Rule.from_dict];
    - [trader/core/safety.py]   : [SafetyLimits], [SafetyCheck];
    - [trader/core/backtest.py] : [Backtester.run];
    - [trader/core/engine.py]   : [TradingEngine._run_loop].

    Conventions of the embedding.

    - Python [int] is [Z]; [str] is [string] (ASCII); [Optional[T]] is
      [option T]; a dictionary is a [gmap]; a raised exception is the
      [Raise] case of [Result].  Logging is left out.
    - [decimal.Decimal] is a finite decimal number: a sign, a coefficient
      and an exponent, the triple Python keeps, so that [str] and the
      constructor from a string are the functions of the library.  NaN
      and the infinities are outside the model.  The number a decimal
      denotes is an exact rational ([Qc], rationals in lowest terms), and
      the amounts of the safety gate and of the backtester are such
      numbers: the rounding of a result to the 28 significant digits of
      the default decimal context is not modelled, and neither is the
      rounding of the one binary floating point division of the
      backtester ([winning / total_completed]).
    - The reason of a verdict of the safety gate is a constructor of
      [Reason] that carries the values its text shows.
    - What the code draws from its environment is an explicit input:
      the answers of the broker and of the ledger, the samples of the
      random source, the readings of the clock, the instant of a stop
      request and the duration of a trading cycle. *)

From Stdlib Require Import ZArith NArith QArith Qcanon Bool List Ascii String.
From Stdlib Require Import DecimalString DecimalFacts DecimalPos DecimalN Lia.
From stdpp Require Import base option list gmap strings.

Local Open Scope string_scope.
Local Open Scope Z_scope.

(** ** Exceptions and results *)

Inductive exn : Type :=
| ValueError (msg : string)
| KeyError (key : string)
| TypeError
| AttributeError
| IndexError
| InvalidOperation      (* decimal.InvalidOperation *)
| ZeroDivisionError     (* decimal.DivisionByZero *)
| Unmodelled.           (* the Python value lies outside this model *)

Inductive Result (A : Type) : Type :=
| Ok (a : A)
| Raise (e : exn).
Arguments Ok {A} a.
Arguments Raise {A} e.

Definition bind {A B} (m : Result A) (k : A → Result B) : Result B :=
  match m with
  | Ok a => k a
  | Raise e => Raise e
  end.

Notation "'let?' x ':=' m 'in' k" := (bind m (fun x => k))
  (at level 10, x pattern, m at level 100, k at level 200).

(** ** Comparison of exact rational values *)

Definition Qc_leb (x y : Qc) : bool := Qle_bool x y.
Definition Qc_ltb (x y : Qc) : bool := negb (Qle_bool y x).
Definition Qc_eqb (x y : Qc) : bool := Qeq_bool x y.
Definition Qc_max (x y : Qc) : Qc := if Qc_ltb x y then y else x.
Definition Qc_of_Z (z : Z) : Qc := Q2Qc (inject_Z z).

(** ** Strings *)

Module pystr.

Definition is_digit (c : ascii) : bool :=
  match uint_of_char c (Some Decimal.Nil) with
  | Some _ => true
  | None => false
  end.

(** [str.isspace] on ASCII: tab, line feed, vertical tab, form feed,
    carriage return, the four separators 28..31 and the space. *)
Definition is_space (c : ascii) : bool :=
  let n := nat_of_ascii c in
  ((9 <=? n) && (n <=? 13) || (28 <=? n) && (n <=? 32))%nat.

Fixpoint lstrip (s : string) : string :=
  match s with
  | EmptyString => EmptyString
  | String c s' => if is_space c then lstrip s' else s
  end.

Fixpoint rstrip (s : string) : string :=
  match s with
  | EmptyString => EmptyString
  | String c s' =>
      match rstrip s' with
      | EmptyString => if is_space c then EmptyString else String c EmptyString
      | r => String c r
      end
  end.

(** [s.strip()] *)
Definition strip (s : string) : string := rstrip (lstrip s).

(** [s.replace(c, '')] for a one-character [c] *)
Fixpoint remove_char (c : ascii) (s : string) : string :=
  match s with
  | EmptyString => EmptyString
  | String a s' =>
      if Ascii.eqb a c then remove_char c s' else String a (remove_char c s')
  end.

(** ['0' * n] and the like *)
Fixpoint repeat_char (c : ascii) (n : nat) : string :=
  match n with
  | O => EmptyString
  | S n' => String c (repeat_char c n')
  end.

(** The longest prefix of digits, and the rest. *)
Fixpoint span_digits (s : string) : string * string :=
  match s with
  | EmptyString => (EmptyString, EmptyString)
  | String c s' =>
      if is_digit c
      then let (d, r) := span_digits s' in (String c d, r)
      else (EmptyString, s)
  end.

Fixpoint all_digits (s : string) : bool :=
  match s with
  | EmptyString => true
  | String c s' => is_digit c && all_digits s'
  end.

Definition upper_char (c : ascii) : ascii :=
  let n := nat_of_ascii c in
  if ((97 <=? n) && (n <=? 122))%nat then ascii_of_nat (n - 32) else c.

Definition lower_char (c : ascii) : ascii :=
  let n := nat_of_ascii c in
  if ((65 <=? n) && (n <=? 90))%nat then ascii_of_nat (n + 32) else c.

Fixpoint map_chars (f : ascii → ascii) (s : string) : string :=
  match s with
  | EmptyString => EmptyString
  | String c s' => String (f c) (map_chars f s')
  end.

(** [s.upper()] and [s.lower()] on ASCII text *)
Definition upper (s : string) : string := map_chars upper_char s.
Definition lower (s : string) : string := map_chars lower_char s.

(** [str(n)] for a natural number: its decimal digits, ["0"] for zero. *)
Definition of_N (n : N) : string := NilZero.string_of_uint (N.to_uint n).

(** [int(s)] for a string of digits (leading zeros allowed). *)
Definition to_N (s : string) : N :=
  match NilEmpty.uint_of_string s with
  | Some u => N.of_uint u
  | None => 0%N
  end.

(** [str(z)] for an [int] *)
Definition of_Z (z : Z) : string :=
  if z <? 0 then String "-" (of_N (Z.abs_N z)) else of_N (Z.abs_N z).

(** ["%+d" % z] *)
Definition of_Z_signed (z : Z) : string :=
  String (if z <? 0 then "-"%char else "+"%char) (of_N (Z.abs_N z)).

End pystr.

(** ** decimal.Decimal *)

Module decimal.

(** [Decimal('170.00')] is [sign = false], [coeff = 17000], [exp = -2]. *)
Record Decimal : Type := mkDecimal {
  sign : bool;
  coeff : N;
  exp : Z
}.

(** The number a decimal denotes: (-1)^sign * coeff * 10^exp. *)
Definition value (d : Decimal) : Qc :=
  Q2Qc ((if sign d then (-1 # 1) else (1 # 1))
        * inject_Z (Z.of_N (coeff d)) * Qpower (10 # 1) (exp d))%Q.

(** [a <= b] and [a >= b] on decimals compare the values. *)
Definition le (a b : Decimal) : bool := Qc_leb (value a) (value b).
Definition ge (a b : Decimal) : bool := Qc_leb (value b) (value a).

(** [Decimal.__str__] (scientific notation, [context.capitals = 1]). *)
Definition to_str (d : Decimal) : string :=
  let _int := pystr.of_N (coeff d) in
  let len := Z.of_nat (String.length _int) in
  let leftdigits := exp d + len in
  let dotplace :=
    if (exp d <=? 0) && (-6 <? leftdigits) then leftdigits else 1 in
  let '(intpart, fracpart) :=
    if dotplace <=? 0 then
      ("0", "." ++ pystr.repeat_char "0" (Z.to_nat (- dotplace)) ++ _int)
    else if len <=? dotplace then
      (_int ++ pystr.repeat_char "0" (Z.to_nat (dotplace - len)), "")
    else
      (substring 0 (Z.to_nat dotplace) _int,
       "." ++ substring (Z.to_nat dotplace)
                (String.length _int - Z.to_nat dotplace) _int) in
  let exp_s :=
    if leftdigits =? dotplace then ""
    else "E" ++ pystr.of_Z_signed (leftdigits - dotplace) in
  (if sign d then "-" else "") ++ intpart ++ fracpart ++ exp_s.

(** The alternatives of the number syntax for an infinity ([Inf] or
    [Infinity]) and for a NaN ([NaN] or [sNaN], then diagnostic digits),
    matched ignoring case; their values are outside the model. *)
Definition is_special (s : string) : bool :=
  let l := pystr.lower s in
  let nan_tail (t : string) :=
    match t with
    | String "n" (String "a" (String "n" diag)) => pystr.all_digits diag
    | _ => false
    end in
  String.eqb l "inf" || String.eqb l "infinity" || nan_tail l
  || match l with String "s" t => nan_tail t | _ => false end.

(** An optional sign before the rest of the text. *)
Definition split_sign (s : string) : bool * string :=
  match s with
  | String "-" r => (true, r)
  | String "+" r => (false, r)
  | _ => (false, s)
  end.

(** An optional fractional part, a point and digits, before the rest. *)
Definition split_fraction (s : string) : option string * string :=
  match s with
  | String "." r => let (f, r') := pystr.span_digits r in (Some f, r')
  | _ => (None, s)
  end.

(** The exponent that follows the letter E, an optional sign and at
    least one digit, read by [int]. *)
Definition parse_exponent (s : string) : Result Z :=
  let '(neg, ds) := split_sign s in
  match ds with
  | EmptyString => Raise InvalidOperation
  | _ =>
      if pystr.all_digits ds
      then Ok (if neg then - Z.of_N (pystr.to_N ds) else Z.of_N (pystr.to_N ds))
      else Raise InvalidOperation
  end.

(** An optional exponent part, which must end the text. *)
Definition read_exponent (s : string) : Result Z :=
  match s with
  | EmptyString => Ok 0
  | String c r =>
      if Ascii.eqb c "E" || Ascii.eqb c "e" then parse_exponent r
      else Raise InvalidOperation
  end.

(** [Decimal(s)] for a string [s]: surrounding white space and
    underscores are dropped, then the text must be, to its end: an
    optional sign; digits of the integer part; optionally a point and
    digits of the fractional part (at least one digit in the two parts
    together); optionally the letter E (either case) and an exponent.
    The coefficient is [int(intpart + fracpart)] and the exponent is
    [exp - len(fracpart)].  A text that is no number raises
    [InvalidOperation]. *)
Definition of_str (s : string) : Result Decimal :=
  let s0 := pystr.remove_char "_" (pystr.strip s) in
  let '(sgn, s1) := split_sign s0 in
  if is_special s1 then Raise Unmodelled else
  let '(intpart, s2) := pystr.span_digits s1 in
  let '(frac, s3) := split_fraction s2 in
  let fracpart := default "" frac in
  if String.eqb intpart "" && String.eqb fracpart "" then Raise InvalidOperation
  else
    let? e := read_exponent s3 in
    Ok (mkDecimal sgn (pystr.to_N (intpart ++ fracpart))
                  (e - Z.of_nat (String.length fracpart))).

End decimal.

(** ** trader/rules/models.py *)

Module models.

Inductive RuleAction : Type := BUY | SELL.
Inductive RuleCondition : Type := BELOW | ABOVE.

(** [RuleAction.value] and [RuleCondition.value] *)
Definition action_value (a : RuleAction) : string :=
  match a with BUY => "buy" | SELL => "sell" end.
Definition condition_value (c : RuleCondition) : string :=
  match c with BELOW => "below" | ABOVE => "above" end.

Record Rule : Type := mkRule {
  symbol : string;
  action : RuleAction;
  condition : RuleCondition;
  target_price : decimal.Decimal;
  quantity : Z;
  id : string;
  enabled : bool;
  triggered : bool;
  description : option string
}.

(** [Rule.__post_init__]: the symbol is upper-cased, then the quantity
    and the target price are validated. *)
Definition __post_init__ (self : Rule) : Result Rule :=
  let self := mkRule (pystr.upper (symbol self)) (action self) (condition self)
                (target_price self) (quantity self) (id self) (enabled self)
                (triggered self) (description self) in
  if quantity self <=? 0 then Raise (ValueError "Quantity must be positive")
  else if decimal.le (target_price self) (decimal.mkDecimal false 0 0)
  then Raise (ValueError "Target price must be positive")
  else Ok self.

(** [Rule.check] *)
Definition check (self : Rule) (current_price : decimal.Decimal) : bool :=
  if negb (enabled self) || triggered self then false
  else match condition self with
       | BELOW => decimal.le current_price (target_price self)
       | ABOVE => decimal.ge current_price (target_price self)
       end.

(** The values a persisted rule record holds. *)
Inductive PyVal : Type :=
| PStr (s : string)
| PInt (z : Z)
| PBool (b : bool)
| PNone.

(** [Rule.to_dict] *)
Definition to_dict (self : Rule) : gmap string PyVal :=
  <["id" := PStr (id self)]>
  (<["symbol" := PStr (symbol self)]>
  (<["action" := PStr (action_value (action self))]>
  (<["condition" := PStr (condition_value (condition self))]>
  (<["target_price" := PStr (decimal.to_str (target_price self))]>
  (<["quantity" := PInt (quantity self)]>
  (<["enabled" := PBool (enabled self)]>
  (<["triggered" := PBool (triggered self)]>
  (<["description" :=
       match description self with Some d => PStr d | None => PNone end]>
   ∅)))))))).

(** [data[key]] *)
Definition getitem (data : gmap string PyVal) (key : string) : Result PyVal :=
  match data !! key with
  | Some v => Ok v
  | None => Raise (KeyError key)
  end.

(** [str(v)] *)
Definition py_str (v : PyVal) : string :=
  match v with
  | PStr s => s
  | PInt z => pystr.of_Z z
  | PBool b => if b then "True" else "False"
  | PNone => "None"
  end.

(** [int(v)]; reading an integer out of a text is outside the model. *)
Definition py_int (v : PyVal) : Result Z :=
  match v with
  | PInt z => Ok z
  | PBool b => Ok (if b then 1 else 0)
  | PStr _ => Raise Unmodelled
  | PNone => Raise TypeError
  end.

(** [RuleAction(v)] and [RuleCondition(v)]: the member with that value. *)
Definition RuleAction_of (v : PyVal) : Result RuleAction :=
  match v with
  | PStr s =>
      if String.eqb s "buy" then Ok BUY
      else if String.eqb s "sell" then Ok SELL
      else Raise (ValueError "not a valid RuleAction")
  | _ => Raise (ValueError "not a valid RuleAction")
  end.

Definition RuleCondition_of (v : PyVal) : Result RuleCondition :=
  match v with
  | PStr s =>
      if String.eqb s "below" then Ok BELOW
      else if String.eqb s "above" then Ok ABOVE
      else Raise (ValueError "not a valid RuleCondition")
  | _ => Raise (ValueError "not a valid RuleCondition")
  end.

(** A value stored in a field declared [str], [bool] or [Optional[str]];
    Python would store a value of any other type as it is, which the
    record [Rule] cannot hold. *)
Definition as_str (v : PyVal) : Result string :=
  match v with PStr s => Ok s | _ => Raise Unmodelled end.
Definition as_bool (v : PyVal) : Result bool :=
  match v with PBool b => Ok b | _ => Raise Unmodelled end.
Definition as_opt_str (v : PyVal) : Result (option string) :=
  match v with
  | PStr s => Ok (Some s)
  | PNone => Ok None
  | _ => Raise Unmodelled
  end.

(** [Rule.from_dict].  [uuid8] is the value of [str(uuid.uuid4())[:8]],
    the default of [data.get("id", ...)].  The arguments are evaluated
    in the order of the call, then the dataclass is built and
    [__post_init__] runs. *)
Definition from_dict (uuid8 : string) (data : gmap string PyVal) : Result Rule :=
  let id_v := default (PStr uuid8) (data !! "id") in
  let? symbol_v := getitem data "symbol" in
  let? action_v := getitem data "action" in
  let? action := RuleAction_of action_v in
  let? condition_v := getitem data "condition" in
  let? condition := RuleCondition_of condition_v in
  let? target_price_v := getitem data "target_price" in
  let? target_price := decimal.of_str (py_str target_price_v) in
  let? quantity_v := getitem data "quantity" in
  let? quantity := py_int quantity_v in
  let enabled_v := default (PBool true) (data !! "enabled") in
  let triggered_v := default (PBool false) (data !! "triggered") in
  let description_v := default PNone (data !! "description") in
  let? id := as_str id_v in
  let? symbol :=
    match symbol_v with
    | PStr s => Ok s
    | _ => Raise AttributeError        (* no method [upper] *)
    end in
  let? enabled := as_bool enabled_v in
  let? triggered := as_bool triggered_v in
  let? description := as_opt_str description_v in
  __post_init__ (mkRule symbol action condition target_price quantity id
                   enabled triggered description).

End models.

(** ** trader/core/safety.py *)

Module safety.

Record SafetyLimits : Type := mkSafetyLimits {
  max_position_size : Z;         (* max shares per position *)
  max_position_value : Qc;       (* max $ per position *)
  max_daily_loss : Qc;           (* max daily loss before stopping *)
  max_daily_trades : Z;          (* max trades per day *)
  max_order_value : Qc           (* max $ per single order *)
}.

(** [SafetyLimits()] *)
Definition default_limits : SafetyLimits :=
  mkSafetyLimits 100 (Qc_of_Z 10000) (Qc_of_Z 500) 50 (Qc_of_Z 5000).

(** What the gate reads of its collaborators ([trader.api.broker],
    [trader.data.ledger]), as they answer at the time of a call. *)
Record Position : Type := mkPosition { market_value : Qc }.
Record Account : Type := mkAccount { buying_power : Qc }.

Record Broker : Type := mkBroker {
  get_position : string → option Position;
  get_account : Account
}.

Record TradeLedger : Type := mkTradeLedger {
  get_total_today_pnl : Qc;
  get_trade_count_today : Z
}.

Record SafetyCheck : Type := mkSafetyCheck {
  broker : Broker;
  ledger : TradeLedger;
  limits : SafetyLimits;
  _killed : bool
}.

(** [SafetyCheck(broker, ledger, limits)] *)
Definition __init__ (broker : Broker) (ledger : TradeLedger)
    (limits : option SafetyLimits) : SafetyCheck :=
  mkSafetyCheck broker ledger (default default_limits limits) false.

(** The reasons a verdict carries.  Each stands for the text the source
    builds, with the values that text shows. *)
Inductive Reason : Type :=
| OK                                        (* "OK" *)
| KillSwitchActive                          (* "Kill switch is active" *)
| DailyLossLimit (daily_pnl : Qc)           (* "Daily loss limit reached: $.." *)
| DailyTradeLimit (trade_count : Z)         (* "Daily trade limit reached: .. trades" *)
| OrderValueExceeds (order_value lim : Qc)  (* "Order value $.. exceeds limit $.." *)
| QuantityExceeds (quantity lim : Z)        (* "Quantity .. exceeds position size limit .." *)
| PositionValueExceeds (new_value lim : Qc) (* "Position value $.. would exceed limit $.." *)
| InsufficientBuyingPower (need have : Qc). (* "Insufficient buying power: need $.., have $.." *)

Definition kill (self : SafetyCheck) : SafetyCheck :=
  mkSafetyCheck (broker self) (ledger self) (limits self) true.

Definition reset (self : SafetyCheck) : SafetyCheck :=
  mkSafetyCheck (broker self) (ledger self) (limits self) false.

Definition is_killed (self : SafetyCheck) : bool := _killed self.

Definition check_can_trade (self : SafetyCheck) : bool * Reason :=
  if _killed self then (false, KillSwitchActive)
  else
    let daily_pnl := get_total_today_pnl (ledger self) in
    if Qc_ltb daily_pnl (- max_daily_loss (limits self))%Qc
    then (false, DailyLossLimit daily_pnl)
    else
      let trade_count := get_trade_count_today (ledger self) in
      if max_daily_trades (limits self) <=? trade_count
      then (false, DailyTradeLimit trade_count)
      else (true, OK).

(** Lines 123-126 of [check_order]: the market value of the position
    held in [symbol], zero when the broker reports none. *)
Definition position_value (b : Broker) (symbol : string) : Qc :=
  match get_position b symbol with
  | Some current_position => market_value current_position
  | None => Qc_of_Z 0
  end.

Definition check_order (self : SafetyCheck) (symbol : string) (quantity : Z)
    (price : Qc) (is_buy : bool) : bool * Reason :=
  let '(can_trade, reason) := check_can_trade self in
  if negb can_trade then (false, reason)
  else
    let order_value := (Qc_of_Z quantity * price)%Qc in
    if Qc_ltb (max_order_value (limits self)) order_value
    then (false, OrderValueExceeds order_value (max_order_value (limits self)))
    else if max_position_size (limits self) <? quantity
    then (false, QuantityExceeds quantity (max_position_size (limits self)))
    else if is_buy then
      let current_value := position_value (broker self) symbol in
      let new_value := (current_value + order_value)%Qc in
      if Qc_ltb (max_position_value (limits self)) new_value
      then (false, PositionValueExceeds new_value (max_position_value (limits self)))
      else
        let account := get_account (broker self) in
        if Qc_ltb (buying_power account) order_value
        then (false, InsufficientBuyingPower order_value (buying_power account))
        else (true, OK)
    else (true, OK).



(** A history of the gate: calls of its methods, and the collaborators
    moving on between calls (trades booked in the ledger, positions and
    buying power changing at the broker). *)
Inductive call : Type :=
| Kill
| Reset
| CheckCanTrade
| CheckOrder (symbol : string) (quantity : Z) (price : Qc) (is_buy : bool)
| GetStatus
| World (b : Broker) (l : TradeLedger).

Definition step (self : SafetyCheck) (c : call) : SafetyCheck :=
  match c with
  | Kill => kill self
  | Reset => reset self
  | CheckCanTrade | CheckOrder _ _ _ _ | GetStatus => self
  | World b l => mkSafetyCheck b l (limits self) (_killed self)
  end.

Definition is_reset (c : call) : bool :=
  match c with Reset => true | _ => false end.

End safety.

(** ** trader/core/backtest.py *)

Module backtest.

Import models.

(** A [datetime] is a point on a time axis counted in days, so that
    adding [timedelta(days=d)] adds [d]. *)
Definition datetime : Type := Z.

(** The fields [symbol] and [quantity] of a trade are [trade_symbol]
    and [trade_quantity] here, apart from those of a [Rule]. *)
Record BacktestTrade : Type := mkBacktestTrade {
  timestamp : datetime;
  trade_symbol : string;
  side : string;
  trade_quantity : Z;
  price : Qc;
  rule_id : string
}.

Record BacktestResult : Type := mkBacktestResult {
  start_date : datetime;
  end_date : datetime;
  initial_capital : Qc;
  final_capital : Qc;
  total_return : Qc;
  total_return_pct : Qc;
  total_trades : Z;
  winning_trades : Z;
  losing_trades : Z;
  win_rate : Qc;
  max_drawdown : Qc;
  trades : list BacktestTrade
}.


(** [Backtester]: its attribute [initial_capital], the starting capital
    of the simulation. *)
Record Backtester : Type := mkBacktester { bt_initial_capital : Qc }.

(** The random source.  [uniform s] is the sample
    [Decimal(str(random.uniform(-0.1, 0.1)))] drawn for the first rule
    of symbol [s]; [gauss day s sigma] is the sample
    [Decimal(str(random.gauss(0, sigma)))] drawn on day [day] for symbol
    [s].  Indexing the samples by what they are drawn for, and not by the
    order of the draws, makes the order in which [list(set(..))]
    enumerates the symbols immaterial. *)
Record Random : Type := mkRandom {
  uniform : string → Qc;
  gauss : nat → string → Qc → Qc
}.

(** [x / y] on decimals, with the traps of the default context. *)
Definition div (x y : Qc) : Result Qc :=
  if Qc_eqb y 0 then
    if Qc_eqb x 0 then Raise InvalidOperation else Raise ZeroDivisionError
  else Ok (x / y)%Qc.

(** [prices[s]] *)
Definition price_of (prices : gmap string Qc) (s : string) : Result Qc :=
  match prices !! s with
  | Some p => Ok p
  | None => Raise (KeyError s)
  end.

(** Lines 86-91: the starting price of each symbol, near the target of
    the first rule that names it. *)
Definition init_prices (rnd : Random) (rules : list Rule) : gmap string Qc :=
  fold_left
    (fun (prices : gmap string Qc) rule =>
       match prices !! symbol rule with
       | Some _ => prices
       | None =>
           let offset := uniform rnd (symbol rule) in
           <[symbol rule := (decimal.value (target_price rule) * (1 + offset))%Qc]> prices
       end)
    rules ∅.

(** Line 85: [list(set(r.symbol for r in rules))], here in the order of
    first occurrence. *)
Definition symbols_of (rules : list Rule) : list string :=
  remove_dups (map symbol rules).

(** Lines 102-104: one step of the random walk of a symbol, floored
    at $1. *)
Definition update_price (rnd : Random) (volatility : Qc) (day : nat)
    (prices : gmap string Qc) (s : string) : Result (gmap string Qc) :=
  let change := gauss rnd day s volatility in
  let? p := price_of prices s in
  let prices := <[s := (p * (1 + change))%Qc]> prices in
  let? p := price_of prices s in
  Ok (<[s := Qc_max p 1%Qc]> prices).

(** Lines 101-104: [for symbol in symbols]. *)
Definition update_prices (rnd : Random) (volatility : Qc) (day : nat)
    (symbols : list string) (prices : gmap string Qc) : Result (gmap string Qc) :=
  fold_left
    (fun (acc : Result (gmap string Qc)) s =>
       let? prices := acc in update_price rnd volatility day prices s)
    symbols (Ok prices).

(** The part of the state of [run] that the rule loop updates. *)
Record Sim : Type := mkSim {
  cash : Qc;
  positions : gmap string (Z * Qc);   (* symbol -> (qty, avg_price) *)
  sim_trades : list BacktestTrade
}.

(** Lines 114-118: the local flag [triggered]. *)
Definition fires (rule : Rule) (current_price : Qc) : bool :=
  match condition rule with
  | BELOW => Qc_leb current_price (decimal.value (target_price rule))
  | ABOVE => Qc_leb (decimal.value (target_price rule)) current_price
  end.

(** Lines 121-162: the simulated fill of a rule that fired. *)
Definition execute (current_date : datetime) (current_price : Qc)
    (st : Sim) (rule : Rule) : Result Sim :=
  match action rule with
  | BUY =>
      let cost := (current_price * Qc_of_Z (quantity rule))%Qc in
      if Qc_leb cost (cash st) then
        let cash := (cash st - cost)%Qc in
        let? positions :=
          match positions st !! symbol rule with
          | Some (old_qty, old_price) =>
              let new_qty := old_qty + quantity rule in
              let? new_avg :=
                div (old_price * Qc_of_Z old_qty
                     + current_price * Qc_of_Z (quantity rule))%Qc
                    (Qc_of_Z new_qty) in
              Ok (<[symbol rule := (new_qty, new_avg)]> (positions st))
          | None =>
              Ok (<[symbol rule := (quantity rule, current_price)]> (positions st))
          end in
        Ok (mkSim cash positions
              (sim_trades st ++
               [mkBacktestTrade current_date (symbol rule) "buy"
                  (quantity rule) current_price (id rule)]))
      else Ok st
  | SELL =>
      match positions st !! symbol rule with
      | Some (qty, avg_price) =>
          let sell_qty := Z.min qty (quantity rule) in
          let cash := (cash st + current_price * Qc_of_Z sell_qty)%Qc in
          let positions :=
            if qty <=? sell_qty then delete (symbol rule) (positions st)
            else <[symbol rule := (qty - sell_qty, avg_price)]> (positions st) in
          Ok (mkSim cash positions
                (sim_trades st ++
                 [mkBacktestTrade current_date (symbol rule) "sell"
                    sell_qty current_price (id rule)]))
      | None => Ok st
      end
  end.

(** Lines 107-162: the body of [for rule in rules]. *)
Definition process_rule (prices : gmap string Qc) (current_date : datetime)
    (st : Sim) (rule : Rule) : Result Sim :=
  if negb (enabled rule) then Ok st
  else
    let? current_price := price_of prices (symbol rule) in
    if fires rule current_price then execute current_date current_price st rule
    else Ok st.

Definition process_rules (prices : gmap string Qc) (current_date : datetime)
    (rules : list Rule) (st : Sim) : Result Sim :=
  fold_left (fun acc rule => let? st := acc in process_rule prices current_date st rule)
    rules (Ok st).

(** Lines 165-168: cash plus the positions marked to market.  The sum
    of exact rationals does not depend on the order in which the
    dictionary yields its items. *)
Definition equity_of (prices : gmap string Qc) (st : Sim) : Result Qc :=
  let? positions_value :=
    map_fold
      (fun s (qa : Z * Qc) (acc : Result Qc) =>
         let? sum := acc in
         let? p := price_of prices s in
         Ok (sum + p * Qc_of_Z (fst qa))%Qc)
      (Ok 0%Qc) (positions st) in
  Ok (cash st + positions_value)%Qc.

(** The state of the day loop. *)
Record Loop : Type := mkLoop {
  prices : gmap string Qc;
  sim : Sim;
  equity_curve : list Qc
}.

(** Lines 97-169: one simulated day. *)
Definition simulate_day (rnd : Random) (volatility : Qc) (start_date : datetime)
    (rules : list Rule) (symbols : list string) (l : Loop) (day : nat) : Result Loop :=
  let current_date := start_date + Z.of_nat day in
  let? prices := update_prices rnd volatility day symbols (prices l) in
  let? sim := process_rules prices current_date rules (sim l) in
  let? equity := equity_of prices sim in
  Ok (mkLoop prices sim (equity_curve l ++ [equity])).

(** Lines 78-169: the state when the day loop ends. *)
Definition simulate (self : Backtester) (rnd : Random) (start_date : datetime)
    (rules : list Rule) (days : Z) (volatility : Qc) : Result Loop :=
  fold_left
    (fun acc day =>
       let? l := acc in
       simulate_day rnd volatility start_date rules (symbols_of rules) l day)
    (seq 0 (Z.to_nat days))
    (Ok (mkLoop (init_prices rnd rules)
           (mkSim (bt_initial_capital self) ∅ [])
           [bt_initial_capital self])).

(** Lines 177-191: one trade of the pairing loop.  [buy_prices] holds,
    per symbol, the prices of the buys not yet paired. *)
Definition pair_trade (acc : Z * Z * gmap string (list Qc)) (trade : BacktestTrade)
    : Z * Z * gmap string (list Qc) :=
  let '(winning, losing, buy_prices) := acc in
  if String.eqb (side trade) "buy" then
    let buy_prices :=
      match buy_prices !! trade_symbol trade with
      | Some _ => buy_prices
      | None => <[trade_symbol trade := []]> buy_prices
      end in
    (winning, losing,
     <[trade_symbol trade :=
         (default [] (buy_prices !! trade_symbol trade) ++ [price trade])%list]>
       buy_prices)
  else if String.eqb (side trade) "sell" then
    match buy_prices !! trade_symbol trade with
    | Some (buy_price :: rest) =>
        let buy_prices := <[trade_symbol trade := rest]> buy_prices in
        if Qc_ltb buy_price (price trade)
        then (winning + 1, losing, buy_prices)
        else (winning, losing + 1, buy_prices)
    | _ => acc
    end
  else acc.

Definition pair_trades (trades : list BacktestTrade) : Z * Z :=
  fst (fold_left pair_trade trades (0, 0, ∅)).

(** Lines 193-194 *)
Definition win_rate_of (winning losing : Z) : Qc :=
  let total_completed := winning + losing in
  if 0 <? total_completed
  then (Qc_of_Z winning / Qc_of_Z total_completed)%Qc
  else 0%Qc.

(** Lines 199-204: one sample of the drawdown loop. *)
Definition drawdown_step (acc : Result (Qc * Qc)) (equity : Qc) : Result (Qc * Qc) :=
  let? pm := acc in
  let '(peak, max_drawdown) := pm in
  let peak := if Qc_ltb peak equity then equity else peak in
  let? drawdown := div (peak - equity)%Qc peak in
  Ok (peak, if Qc_ltb max_drawdown drawdown then drawdown else max_drawdown).

(** Lines 197-204 *)
Definition max_drawdown_of (equity_curve : list Qc) : Result Qc :=
  match equity_curve with
  | [] => Raise IndexError        (* [equity_curve[0]]; the curve is never empty *)
  | peak :: _ =>
      let? pm := fold_left drawdown_step equity_curve (Ok (peak, 0%Qc)) in
      Ok (snd pm)
  end.

(** [Backtester.run].  [now0] and [now1] are the two readings of
    [datetime.now()].  The second component of the result is the list of
    rule objects as [run] leaves them: the function reads their
    attributes and assigns to none. *)
Definition run (self : Backtester) (rnd : Random) (now0 now1 : datetime)
    (rules : list Rule) (days : Z) (volatility : Qc)
    : Result (BacktestResult * list Rule) :=
  match rules with
  | [] => Raise (ValueError "No rules to backtest")
  | _ =>
      let start_date := now0 - days in
      let end_date := now1 in
      let? l := simulate self rnd start_date rules days volatility in
      let final_capital := List.last (equity_curve l) 0%Qc in
      let total_return := (final_capital - bt_initial_capital self)%Qc in
      let? total_return_pct := div total_return (bt_initial_capital self) in
      let trades := sim_trades (sim l) in
      let '(winning, losing) := pair_trades trades in
      let win_rate := win_rate_of winning losing in
      let? max_drawdown := max_drawdown_of (equity_curve l) in
      Ok (mkBacktestResult start_date end_date (bt_initial_capital self)
            final_capital total_return total_return_pct
            (Z.of_nat (length trades)) winning losing win_rate max_drawdown
            trades,
          rules)
  end.

End backtest.

(** ** trader/core/engine.py *)

Module engine.

(** Time is counted in ticks of the clock [time.time()] reads;
    [poll_interval] is given in the same unit.

    What the loop does not control: the instant at which [stop()] is
    called, by a signal handler installed by [start()] or by another
    thread ([None]: never), and the time the [n]-th call of
    [_run_cycle()] takes, an exception it raises being caught. *)
Record Env : Type := mkEnv {
  stop_at : option Z;
  cycle_time : nat → Z
}.

(** [self._stop_requested] as read at time [t]: [stop()] sets it, and
    nothing in the loop clears it. *)
Definition _stop_requested (env : Env) (t : Z) : bool :=
  match stop_at env with
  | Some s => s <=? t
  | None => false
  end.

(** The control points of [_run_loop], with the clock.  [n] counts the
    cycles completed so far. *)
Inductive State : Type :=
| AtWhile (now : Z) (n : nat)                  (* testing the loop condition *)
| InCycle (cycle_start : Z) (n : nat)          (* inside [_run_cycle()] *)
| AtSleepTest (cycle_start now : Z) (n : nat)  (* cycle over, before the [if] *)
| InSleep (since sleep_time : Z) (n : nat)     (* inside [time.sleep(sleep_time)] *)
| Returned (now : Z).                          (* [_run_loop] has returned *)

(** One step of [_run_loop].  [time.sleep(sleep_time)] is one blocking
    call for the whole of [sleep_time]: it reads no flag, and a signal
    whose handler returns normally, as [_handle_shutdown] does, leaves
    it sleeping until the time is up. *)
Definition step (poll_interval : Z) (env : Env) (st : State) : State :=
  match st with
  | AtWhile now n =>
      if negb (_stop_requested env now) then InCycle now n else Returned now
  | InCycle cycle_start n =>
      AtSleepTest cycle_start (cycle_start + cycle_time env n) n
  | AtSleepTest cycle_start now n =>
      let elapsed := now - cycle_start in
      let sleep_time := Z.max 0 (poll_interval - elapsed) in
      if (0 <? sleep_time) && negb (_stop_requested env now)
      then InSleep now sleep_time n
      else AtWhile now (S n)
  | InSleep since sleep_time n => AtWhile (since + sleep_time) (S n)
  | Returned now => Returned now
  end.

Fixpoint steps (poll_interval : Z) (env : Env) (k : nat) (st : State) : State :=
  match k with
  | O => st
  | S k' => steps poll_interval env k' (step poll_interval env st)
  end.

End engine.

(** ** trader/rules/loader.py *)

Module loader.

Import models.

(** The rules file of the configuration directory in use, by what
    [yaml.safe_load] reads from it: the file may be missing; a file that
    holds no mapping with a key "rules" reads as [Doc None]; otherwise
    the value of "rules" is a list of records.  [yaml.dump] writes a
    document that reads back as the data dumped. *)
Inductive File : Type :=
| Missing
| Doc (rules : option (list (gmap string PyVal))).

(** [[Rule.from_dict(r) for r in data["rules"]]]: the records are read
    in order and the first error is raised.  [uuids i] is the identifier
    generated while the record at position [i] is read. *)
Fixpoint from_dicts (uuids : nat → string) (i : nat)
    (records : list (gmap string PyVal)) : Result (list Rule) :=
  match records with
  | [] => Ok []
  | data :: records' =>
      let? r := from_dict (uuids i) data in
      let? rs := from_dicts uuids (S i) records' in
      Ok (r :: rs)
  end.

(** [load_rules] *)
Definition load_rules (uuids : nat → string) (file : File) : Result (list Rule) :=
  match file with
  | Missing => Ok []
  | Doc None => Ok []
  | Doc (Some records) => from_dicts uuids 0 records
  end.

(** [save_rules]: the file is written anew. *)
Definition save_rules (rules : list Rule) (file : File) : File :=
  Doc (Some (map to_dict rules)).

(** The index of the first rule with the given id (lines 67-71 of
    [save_rule]). *)
Fixpoint index_of (rule_id : string) (rules : list Rule) : option nat :=
  match rules with
  | [] => None
  | r :: rules' =>
      if String.eqb (id r) rule_id then Some O
      else option_map S (index_of rule_id rules')
  end.

(** [save_rule]: add or update a single rule. *)
Definition save_rule (uuids : nat → string) (rule : Rule) (file : File) : Result File :=
  let? rules := load_rules uuids file in
  let existing_idx := index_of (id rule) rules in
  let rules :=
    match existing_idx with
    | Some i => <[i := rule]> rules
    | None => (rules ++ [rule])%list
    end in
  Ok (save_rules rules file).

(** [delete_rule]: the answer, and the file afterwards. *)
Definition delete_rule (uuids : nat → string) (rule_id : string) (file : File)
    : Result (bool * File) :=
  let? rules := load_rules uuids file in
  let original_count := length rules in
  let rules := List.filter (fun r => negb (String.eqb (id r) rule_id)) rules in
  if (length rules =? original_count)%nat then Ok (false, file)
  else Ok (true, save_rules rules file).

(** The first rule with the given id (lines 114-117 of [get_rule]). *)
Definition find_rule (rule_id : string) (rules : list Rule) : option Rule :=
  List.find (fun r => String.eqb (id r) rule_id) rules.

(** [get_rule] *)
Definition get_rule (uuids : nat → string) (rule_id : string) (file : File)
    : Result (option Rule) :=
  let? rules := load_rules uuids file in
  Ok (find_rule rule_id rules).

(** The rule with its [enabled] flag, or its [triggered] flag, set. *)
Definition set_enabled (enabled : bool) (rule : Rule) : Rule :=
  mkRule (symbol rule) (action rule) (condition rule) (target_price rule)
    (quantity rule) (id rule) enabled (triggered rule) (description rule).

Definition set_triggered (rule : Rule) : Rule :=
  mkRule (symbol rule) (action rule) (condition rule) (target_price rule)
    (quantity rule) (id rule) (enabled rule) true (description rule).


(** [mark_triggered] *)
Definition mark_triggered (uuids uuids' : nat → string) (rule_id : string)
    (file : File) : Result (bool * File) :=
  let? rule := get_rule uuids rule_id file in
  match rule with
  | None => Ok (false, file)
  | Some rule =>
      let rule := set_triggered rule in              (* rule.triggered = True *)
      let? file := save_rule uuids' rule file in
      Ok (true, file)
  end.

End loader.

(** ** Definitions used to state and prove the properties *)

Module text_spec.
Import pystr.

(** No white space and no underscore in the text. *)
Fixpoint plain (s : string) : bool :=
  match s with
  | EmptyString => true
  | String c s' => negb (is_space c) && negb (Ascii.eqb c "_") && plain s'
  end.

(** The text [b] does not go on with a digit. *)
Definition ends_digits (b : string) : bool :=
  match b with
  | EmptyString => true
  | String c _ => negb (is_digit c)
  end.

(** The texts [Decimal.__str__] produces: a sign, digits, an optional
    fraction and an optional exponent. *)
Definition render (sgn : bool) (intpart : string) (frac : option string)
    (e : option Z) : string :=
  (if sgn then "-" else "")
  ++ intpart
  ++ match frac with Some f => "." ++ f | None => "" end
  ++ match e with Some z => "E" ++ of_Z_signed z | None => "" end.

End text_spec.

Module rule_spec.
Import models.

(** The invariants of a rule: an upper-case symbol, a positive quantity
    and a positive target price. *)
Definition valid (r : Rule) : Prop :=
  pystr.upper (symbol r) = symbol r
  ∧ 0 < quantity r
  ∧ (0 < decimal.value (target_price r))%Qc.

End rule_spec.

Module backtest_spec.
Import backtest.




(** Every position is a positive quantity in a symbol that has a price. *)
Definition positions_ok (prices : gmap string Qc) (st : Sim) : Prop :=
  ∀ s q a, positions st !! s = Some (q, a) → 0 < q ∧ is_Some (prices !! s).

End backtest_spec.

Module pairing_spec.
Import backtest.








End pairing_spec.

Module latch_spec.
Import models backtest.


(** The rule with its [triggered] flag set to [b]. *)
Definition with_triggered (b : bool) (rule : Rule) : Rule :=
  mkRule (symbol rule) (action rule) (condition rule) (target_price rule)
    (quantity rule) (id rule) (enabled rule) b (description rule).


End latch_spec.

Module engine_spec.
Import engine.

(** The states the loop goes through when it is entered at time [t0]. *)
Definition reachable (poll_interval : Z) (env : Env) (t0 : Z) (st : State) : Prop :=
  ∃ k, steps poll_interval env k (AtWhile t0 0) = st.

(** "A stop requested during the inter-cycle sleep is respected instead
    of completing the sleep": whenever [stop()] is called strictly
    inside a sleep of the loop, the loop returns before the end of that
    sleep. *)
Definition stop_cuts_sleep_short (poll_interval : Z) (env : Env) (t0 : Z) : Prop :=
  ∀ since sleep_time n s,
    reachable poll_interval env t0 (InSleep since sleep_time n) →
    stop_at env = Some s → since < s < since + sleep_time →
    ∃ k now,
      steps poll_interval env k (InSleep since sleep_time n) = Returned now
      ∧ now < since + sleep_time.

End engine_spec.

(** ** A scenario for the examples

    One symbol, whose price starts at 100 and moves by -5%, -10%, +30%,
    0% and -20% over five days; a buy rule whose [triggered] flag is
    already set, a sell rule, and a disabled rule. *)

Module demo.
Import models backtest.

Definition rules : list Rule :=
  [mkRule "AAPL" BUY BELOW (decimal.mkDecimal false 10000 (-2)) 10 "dip" true true None;
   mkRule "AAPL" SELL ABOVE (decimal.mkDecimal false 105 0) 10 "peak" true false None;
   mkRule "TSLA" BUY BELOW (decimal.mkDecimal false 300 0) 1 "off" false false None].

Definition random : Random :=
  mkRandom (λ _, 0%Qc)
    (λ day _ _,
       Q2Qc (nth day [(-5 # 100); (-10 # 100); (30 # 100); 0; (-20 # 100)]%Q 0%Q)).

Definition backtester : Backtester := mkBacktester (Qc_of_Z 100000).

Definition outcome : Result (BacktestResult * list Rule) :=
  run backtester random 30 30 rules 5 (Q2Qc (2 # 100)).

Definition result : BacktestResult :=
  match outcome with
  | Ok (res, _) => res
  | Raise _ => mkBacktestResult 0 0 0%Qc 0%Qc 0%Qc 0%Qc 0 0 0 0%Qc 0%Qc []
  end.

End demo.

Module loader_spec.
Import models loader.

(** The list [save_rule] writes: the rule replaces the first rule with
    its id, or is added at the end. *)
Definition upsert (rule : Rule) (rules : list Rule) : list Rule :=
  match index_of (id rule) rules with
  | Some i => <[i := rule]> rules
  | None => rules ++ [rule]
  end.

(** The rules that [delete_rule] keeps. *)
Definition without (rule_id : string) (rules : list Rule) : list Rule :=
  List.filter (fun r => negb (String.eqb (id r) rule_id)) rules.

End loader_spec.

(** ** The trade log as a book of account *)

Module account_spec.
Import models backtest.



(** What a trade moves in shares of symbol [s]. *)
Definition shares_flow (s : string) (t : BacktestTrade) : Z :=
  if String.eqb (trade_symbol t) s then
    if String.eqb (side t) "buy" then trade_quantity t
    else if String.eqb (side t) "sell" then - trade_quantity t
    else 0
  else 0.

(** The shares of [s] bought and not sold in the log. *)
Definition shares_after (s : string) (log : list BacktestTrade) : Z :=
  fold_left (λ n t, n + shares_flow s t) log 0.

(** The quantity held in [s] according to the dictionary [positions]. *)
Definition held (positions : gmap string (Z * Qc)) (s : string) : Z :=
  match positions !! s with
  | Some (qty, _) => qty
  | None => 0
  end.

(** Trade [t] is a fill of [rule]: the rule is enabled, its price
    condition holds at the price of the trade, and the trade carries the
    symbol, the id and the side of the rule; a buy has the quantity of
    the rule, a sell at most that. *)
Definition fill_of (rule : Rule) (t : BacktestTrade) : Prop :=
  enabled rule = true
  ∧ fires rule (price t) = true
  ∧ trade_symbol t = symbol rule
  ∧ rule_id t = id rule
  ∧ side t = action_value (action rule)
  ∧ match action rule with
    | BUY => trade_quantity t = quantity rule
    | SELL => trade_quantity t <= quantity rule
    end.

(** The prices of the symbols are at the floor of $1 or above. *)
Definition floored (symbols : list string) (prices : gmap string Qc) : Prop :=
  ∀ s p, s ∈ symbols → prices !! s = Some p → (1 <= p)%Qc.

(** The sells of a log. *)
Definition sells (log : list BacktestTrade) : list BacktestTrade :=
  List.filter (λ t, String.eqb (side t) "sell") log.

End account_spec.

(** ** Sample data for the examples *)

Module samples.
Import models.

(** The record of the test suite, with a symbol in lower case. *)
Definition sample_record : gmap string PyVal :=
  <["id" := PStr "test123"]>
  (<["symbol" := PStr "aapl"]>
  (<["action" := PStr "buy"]>
  (<["condition" := PStr "below"]>
  (<["target_price" := PStr "170.00"]>
  (<["quantity" := PInt 10]> ∅))))).

Definition sample_rule : Rule :=
  mkRule "AAPL" BUY BELOW (decimal.mkDecimal false 17000 (-2)) 10 "test123"
    true false None.

Definition sample_sell : Rule :=
  mkRule "TSLA" SELL ABOVE (decimal.mkDecimal false 300 0) 5 "tsla-1"
    true false (Some "take profit").

(** A rules file that holds the two sample rules. *)
Definition sample_file : loader.File :=
  loader.save_rules [sample_rule; sample_sell] loader.Missing.

Definition no_uuids : nat → string := fun _ => "00000000".

End samples.

(** ** Tactics *)

(** Closes a case of a verdict whose hypotheses contradict each other
    or give the goal. *)
Ltac order_cases :=
  intros;
  repeat match goal with
         | H : _ ∧ _ |- _ => destruct H
         | H : ?b = true → _, H' : ?b = true |- _ => specialize (H H')
         end;
  try congruence; try lia;
  try match goal with
      | H1 : (?a < ?b)%Qc, H2 : (?b <= ?a)%Qc |- _ =>
          exfalso; exact (Qclt_not_le _ _ H1 H2)
      end.

(** * Properties *)

Local Open Scope list_scope.

(** ** Comparison of exact rational values *)

Lemma Qc_leb_le (x y : Qc) : Qc_leb x y = true ↔ (x <= y)%Qc.
Proof. unfold Qc_leb, Qcle. apply Qle_bool_iff. Qed.

Lemma Qc_leb_gt (x y : Qc) : Qc_leb x y = false ↔ (y < x)%Qc.
Proof.
  rewrite <- not_true_iff_false, Qc_leb_le.
  split; [apply Qcnot_le_lt | apply Qclt_not_le].
Qed.

Lemma Qc_ltb_lt (x y : Qc) : Qc_ltb x y = true ↔ (x < y)%Qc.
Proof.
  unfold Qc_ltb. rewrite negb_true_iff.
  change (Qle_bool y x) with (Qc_leb y x). apply Qc_leb_gt.
Qed.

Lemma Qc_ltb_ge (x y : Qc) : Qc_ltb x y = false ↔ (y <= x)%Qc.
Proof.
  unfold Qc_ltb. rewrite negb_false_iff.
  change (Qle_bool y x) with (Qc_leb y x). apply Qc_leb_le.
Qed.

Lemma Qc_ltb_irrefl (x : Qc) : Qc_ltb x x = false.
Proof. apply Qc_ltb_ge, Qcle_refl. Qed.

Lemma Qc_eqb_eq (x y : Qc) : Qc_eqb x y = true ↔ x = y.
Proof.
  unfold Qc_eqb. rewrite Qeq_bool_iff. split.
  - apply Qc_is_canon.
  - intros ->. reflexivity.
Qed.

(** ** Rule.check *)

Section RuleCheck.
Import models.

(** C1: [r.check(p)] is true exactly when the rule is enabled, not yet
    triggered, and the price meets the condition: [p <= target_price]
    for BELOW, [p >= target_price] for ABOVE, a price equal to the
    target triggering in both directions. *)
Theorem check_true_iff (r : Rule) (p : decimal.Decimal) :
  check r p = true ↔
    enabled r = true ∧ triggered r = false ∧
    match condition r with
    | BELOW => (decimal.value p <= decimal.value (target_price r))%Qc
    | ABOVE => (decimal.value p >= decimal.value (target_price r))%Qc
    end.
Proof.
  unfold check, decimal.le, decimal.ge.
  destruct (enabled r), (triggered r); simpl;
    try (split; [discriminate | intros (? & ? & _); discriminate]).
  destruct (condition r); rewrite Qc_leb_le; tauto.
Qed.

(** The boundary: a price equal to the target triggers an active rule,
    whatever the condition. *)
Lemma check_at_target (r : Rule) :
  enabled r = true → triggered r = false → check r (target_price r) = true.
Proof.
  intros He Ht. unfold check, decimal.le, decimal.ge. rewrite He, Ht. simpl.
  destruct (condition r); apply Qc_leb_le, Qcle_refl.
Qed.

(** A disabled or an already triggered rule never triggers. *)
Lemma check_inactive (r : Rule) (p : decimal.Decimal) :
  enabled r = false ∨ triggered r = true → check r p = false.
Proof.
  intros [H | H]; unfold check; rewrite H; [reflexivity |].
  destruct (enabled r); reflexivity.
Qed.

(** The rule of the test suite, buy below 170.00: it triggers at 169.99
    and at 170.00, and not at 170.01. *)
Example check_true_iff_witness :
  let r := mkRule "AAPL" BUY BELOW (decimal.mkDecimal false 17000 (-2)) 10
             "test123" true false None in
  check r (decimal.mkDecimal false 16999 (-2)) = true
  ∧ check r (decimal.mkDecimal false 17000 (-2)) = true
  ∧ check r (decimal.mkDecimal false 17001 (-2)) = false.
Proof.
  intros r. split; [| split; [| reflexivity]].
  - apply (proj2 (check_true_iff r (decimal.mkDecimal false 16999 (-2)))).
    split; [reflexivity | split; [reflexivity |]].
    apply Qc_leb_le. reflexivity.
  - apply (proj2 (check_true_iff r (decimal.mkDecimal false 17000 (-2)))).
    split; [reflexivity | split; [reflexivity |]].
    apply Qc_leb_le. reflexivity.
Defined.

End RuleCheck.

(** ** Strings of digits *)

Section Digits.
Import pystr text_spec.
Local Open Scope string_scope.

Lemma is_digit_cases (c : ascii) :
  is_digit c = true →
  In c ["0"; "1"; "2"; "3"; "4"; "5"; "6"; "7"; "8"; "9"]%char.
Proof.
  destruct c as [[|] [|] [|] [|] [|] [|] [|] [|]]; intros H;
    try discriminate H; simpl; tauto.
Qed.

(** A digit is no white space and none of the marks of the syntax. *)
Lemma digit_plain (c : ascii) :
  is_digit c = true →
  is_space c = false ∧ Ascii.eqb c "_" = false ∧ Ascii.eqb c "." = false
  ∧ Ascii.eqb c "-" = false ∧ Ascii.eqb c "+" = false
  ∧ Ascii.eqb c "E" = false ∧ Ascii.eqb c "e" = false
  ∧ lower_char c = c.
Proof.
  intros H. apply is_digit_cases in H. simpl in H.
  repeat (destruct H as [<- | H]; [repeat split; reflexivity |]).
  contradiction.
Qed.

Lemma plain_app (a b : string) : plain (a ++ b) = plain a && plain b.
Proof.
  induction a as [| c a IH]; [reflexivity |].
  change (String c a ++ b) with (String c (a ++ b)).
  simpl. rewrite IH, andb_assoc. reflexivity.
Qed.

Lemma all_digits_plain (s : string) : all_digits s = true → plain s = true.
Proof.
  induction s as [| c s IH]; [reflexivity |]. simpl.
  intros H. apply andb_true_iff in H as [Hc Hs].
  destruct (digit_plain c Hc) as (-> & -> & _). rewrite (IH Hs). reflexivity.
Qed.

Lemma rstrip_plain (s : string) : plain s = true → rstrip s = s.
Proof.
  induction s as [| c s IH]; [reflexivity |]. simpl.
  intros H. apply andb_true_iff in H as [H Hs]. apply andb_true_iff in H as [Hc _].
  rewrite (IH Hs). apply negb_true_iff in Hc. rewrite Hc.
  destruct s; reflexivity.
Qed.

Lemma strip_plain (s : string) : plain s = true → strip s = s.
Proof.
  intros H. unfold strip.
  assert (Hl : lstrip s = s).
  { destruct s as [| c s]; [reflexivity |]. simpl in *.
    apply andb_true_iff in H as [H _]. apply andb_true_iff in H as [Hc _].
    apply negb_true_iff in Hc. rewrite Hc. reflexivity. }
  rewrite Hl. apply rstrip_plain, H.
Qed.

Lemma remove_underscore_plain (s : string) :
  plain s = true → remove_char "_" s = s.
Proof.
  induction s as [| c s IH]; [reflexivity |]. simpl.
  intros H. apply andb_true_iff in H as [H Hs]. apply andb_true_iff in H as [_ Hc].
  apply negb_true_iff in Hc. rewrite Hc, (IH Hs). reflexivity.
Qed.

Lemma all_digits_app (a b : string) :
  all_digits (a ++ b) = all_digits a && all_digits b.
Proof.
  induction a as [| c a IH]; [reflexivity |].
  change (String c a ++ b) with (String c (a ++ b)).
  simpl. rewrite IH, andb_assoc. reflexivity.
Qed.

Lemma all_digits_repeat_0 (n : nat) : all_digits (repeat_char "0" n) = true.
Proof. induction n as [| n IH]; [reflexivity | exact IH]. Qed.

Lemma length_repeat_char (c : ascii) (n : nat) :
  String.length (repeat_char c n) = n.
Proof. induction n as [| n IH]; simpl; [reflexivity | rewrite IH; reflexivity]. Qed.

Lemma app_cons (c : ascii) (a b : string) : String c a ++ b = String c (a ++ b).
Proof. reflexivity. Qed.

Lemma app_empty_l (b : string) : "" ++ b = b.
Proof. reflexivity. Qed.

Lemma length_app_string (a b : string) :
  String.length (a ++ b) = (String.length a + String.length b)%nat.
Proof.
  induction a as [| c a IH]; [reflexivity |].
  rewrite app_cons. simpl. rewrite IH. reflexivity.
Qed.

Lemma app_empty_r (a : string) : a ++ "" = a.
Proof.
  induction a as [| c a IH]; [reflexivity |].
  rewrite app_cons, IH. reflexivity.
Qed.

Lemma app_assoc_string (a b c : string) : (a ++ b) ++ c = a ++ b ++ c.
Proof.
  induction a as [| x a IH]; [reflexivity |].
  rewrite !app_cons, IH. reflexivity.
Qed.

Lemma span_digits_app (a b : string) :
  all_digits a = true → ends_digits b = true → span_digits (a ++ b) = (a, b).
Proof.
  intros Ha Hb. induction a as [| c a IH].
  - destruct b as [| c b]; [reflexivity |]. simpl in *.
    apply negb_true_iff in Hb. rewrite Hb. reflexivity.
  - change (String c a ++ b) with (String c (a ++ b)).
    simpl in *. apply andb_true_iff in Ha as [Hc Ha].
    rewrite Hc, (IH Ha). reflexivity.
Qed.

Lemma substring_all (s : string) : substring 0 (String.length s) s = s.
Proof. induction s as [| c s IH]; [reflexivity |]. simpl. f_equal. exact IH. Qed.

Lemma substring_0_0 (s : string) : substring 0 0 s = "".
Proof. destruct s; reflexivity. Qed.

(** Cutting a text in two at position [k]. *)
Lemma substring_split (s : string) (k : nat) :
  (k <= String.length s)%nat →
  substring 0 k s ++ substring k (String.length s - k) s = s.
Proof.
  revert k. induction s as [| c s IH]; intros k Hk.
  - simpl in Hk. assert (k = 0%nat) as -> by lia. reflexivity.
  - destruct k as [| k].
    + rewrite substring_0_0, Nat.sub_0_r, substring_all. reflexivity.
    + simpl substring. rewrite app_cons. f_equal. apply IH. simpl in Hk. lia.
Qed.

Lemma all_digits_substring (s : string) (n m : nat) :
  all_digits s = true → all_digits (substring n m s) = true.
Proof.
  revert n m. induction s as [| c s IH]; intros n m H.
  - destruct n, m; reflexivity.
  - simpl in H. apply andb_true_iff in H as [Hc Hs].
    destruct n as [| n]; [destruct m as [| m] |]; simpl.
    + reflexivity.
    + rewrite Hc. apply IH, Hs.
    + apply IH, Hs.
Qed.

Lemma length_substring_tail (s : string) (k : nat) :
  (k <= String.length s)%nat →
  String.length (substring k (String.length s - k) s) = (String.length s - k)%nat.
Proof.
  revert k. induction s as [| c s IH]; intros k Hk.
  - simpl in *. destruct k; reflexivity.
  - destruct k as [| k].
    + simpl. f_equal. clear. induction s as [| a s IHs]; [reflexivity |].
      simpl. f_equal. exact IHs.
    + simpl in *. apply IH. lia.
Qed.

Lemma length_substring_head (s : string) (k : nat) :
  (k <= String.length s)%nat → String.length (substring 0 k s) = k.
Proof.
  revert k. induction s as [| c s IH]; intros k Hk.
  - simpl in *. assert (k = 0%nat) as -> by lia. reflexivity.
  - destruct k as [| k]; [reflexivity |]. simpl in *. f_equal. apply IH. lia.
Qed.

(** Digits read back as the number they print. *)
Lemma all_digits_string_of_uint (u : Decimal.uint) :
  all_digits (NilEmpty.string_of_uint u) = true.
Proof. induction u; simpl; auto. Qed.

Lemma of_N_shape (n : N) :
  of_N n = NilEmpty.string_of_uint (N.to_uint n) ∧ of_N n ≠ "".
Proof.
  unfold of_N, NilZero.string_of_uint.
  destruct n as [| p]; [split; [reflexivity | discriminate] |].
  simpl N.to_uint. pose proof (DecimalPos.Unsigned.to_uint_nonnil p) as Hnil.
  destruct (Pos.to_uint p); try contradiction; split; (reflexivity || discriminate).
Qed.

Lemma all_digits_of_N (n : N) : all_digits (of_N n) = true.
Proof. rewrite (proj1 (of_N_shape n)). apply all_digits_string_of_uint. Qed.

Lemma to_N_of_N (n : N) : to_N (of_N n) = n.
Proof.
  unfold to_N. rewrite (proj1 (of_N_shape n)), NilEmpty.usu.
  apply DecimalN.Unsigned.of_to.
Qed.

Lemma to_N_zero (s : string) : to_N (String "0" s) = to_N s.
Proof.
  unfold to_N. simpl. destruct (NilEmpty.uint_of_string s); reflexivity.
Qed.

Lemma to_N_zeros (n : nat) (s : string) : to_N (repeat_char "0" n ++ s) = to_N s.
Proof.
  induction n as [| n IH]; [reflexivity |].
  simpl repeat_char. rewrite app_cons, to_N_zero. exact IH.
Qed.

Lemma plain_of_N (n : N) : plain (of_N n) = true.
Proof. apply all_digits_plain, all_digits_of_N. Qed.

End Digits.

(** ** Decimal: printing and reading back *)

Section DecimalText.
Import pystr decimal text_spec.
Local Open Scope string_scope.
Local Open Scope Z_scope.

Lemma digits_head (s : string) :
  s ≠ "" → all_digits s = true → ∃ c r, s = String c r ∧ is_digit c = true.
Proof.
  destruct s as [| c r]; [contradiction |]. simpl.
  intros _ H. apply andb_true_iff in H as [Hc _]. eauto.
Qed.

Lemma split_sign_digit (c : ascii) (r : string) :
  is_digit c = true → split_sign (String c r) = (false, String c r).
Proof.
  intros H. apply is_digit_cases in H. simpl in H.
  repeat (destruct H as [<- | H]; [reflexivity |]). contradiction.
Qed.

Lemma is_special_digit (c : ascii) (r : string) :
  is_digit c = true → is_special (String c r) = false.
Proof.
  intros H. apply is_digit_cases in H. simpl in H.
  repeat (destruct H as [<- | H]; [reflexivity |]). contradiction.
Qed.

Lemma parse_exponent_signed (z : Z) : parse_exponent (of_Z_signed z) = Ok z.
Proof.
  unfold parse_exponent, of_Z_signed.
  assert (Hsplit : split_sign (String (if z <? 0 then "-"%char else "+"%char)
                                 (of_N (Z.abs_N z)))
                   = (z <? 0, of_N (Z.abs_N z)))
    by (destruct (z <? 0); reflexivity).
  rewrite Hsplit. rewrite all_digits_of_N, to_N_of_N.
  destruct (of_N (Z.abs_N z)) eqn:E;
    [exfalso; exact (proj2 (of_N_shape _) E) |].
  rewrite N2Z.inj_abs_N. f_equal.
  destruct (Z.ltb_spec z 0); lia.
Qed.

Lemma plain_signed (z : Z) : plain (of_Z_signed z) = true.
Proof.
  unfold of_Z_signed. simpl. rewrite plain_of_N.
  destruct (z <? 0); reflexivity.
Qed.

Lemma plain_render sgn intpart frac e :
  all_digits intpart = true → all_digits (default "" frac) = true →
  plain (render sgn intpart frac e) = true.
Proof.
  intros Hi Hf. unfold render. rewrite !plain_app.
  rewrite (all_digits_plain _ Hi).
  repeat (apply andb_true_iff; split); try reflexivity.
  - destruct sgn; reflexivity.
  - destruct frac as [f |]; [| reflexivity].
    rewrite plain_app. simpl in *. exact (all_digits_plain _ Hf).
  - destruct e as [z |]; [| reflexivity].
    rewrite plain_app. simpl. apply plain_signed.
Qed.

(** Reading a rendered text gives back its parts. *)
Lemma of_str_render sgn intpart frac e :
  intpart ≠ "" → all_digits intpart = true →
  all_digits (default "" frac) = true →
  of_str (render sgn intpart frac e)
  = Ok (mkDecimal sgn (to_N (intpart ++ default "" frac))
          (default 0 e - Z.of_nat (String.length (default "" frac)))).
Proof.
  intros Hne Hi Hf. unfold of_str.
  rewrite strip_plain, remove_underscore_plain by (apply plain_render; assumption).
  set (exp_s := match e with Some z => "E" ++ of_Z_signed z | None => "" end).
  set (frac_s := match frac with Some f => "." ++ f | None => "" end).
  set (body := intpart ++ frac_s ++ exp_s).
  assert (Hexp_end : ends_digits exp_s = true)
    by (subst exp_s; destruct e; reflexivity).
  assert (Hfrac_end : ends_digits (frac_s ++ exp_s) = true).
  { subst frac_s. destruct frac; [reflexivity | exact Hexp_end]. }
  destruct (digits_head intpart Hne Hi) as (c & r & Hip & Hc).
  assert (Hsign : split_sign (render sgn intpart frac e) = (sgn, body)).
  { unfold render. fold frac_s exp_s body. destruct sgn; [reflexivity |].
    rewrite app_empty_l. subst body. rewrite Hip, app_cons.
    apply split_sign_digit, Hc. }
  rewrite Hsign.
  assert (Hspecial : is_special body = false)
    by (subst body; rewrite Hip, app_cons; apply is_special_digit, Hc).
  rewrite Hspecial. subst body.
  rewrite (span_digits_app intpart _ Hi Hfrac_end).
  assert (Hfrac : split_fraction (frac_s ++ exp_s) = (frac, exp_s)).
  { subst frac_s. destruct frac as [f |].
    - rewrite app_assoc_string. change ("." ++ f ++ exp_s) with (String "." (f ++ exp_s)).
      unfold split_fraction. rewrite (span_digits_app f exp_s Hf Hexp_end). reflexivity.
    - rewrite app_empty_l. subst exp_s. destruct e; reflexivity. }
  rewrite Hfrac.
  assert (Hempty : String.eqb intpart "" = false) by (apply String.eqb_neq, Hne).
  rewrite Hempty. cbn [andb].
  assert (Hexp : read_exponent exp_s = Ok (default 0 e)).
  { subst exp_s. destruct e as [z |]; [| reflexivity].
    change ("E" ++ of_Z_signed z) with (String "E" (of_Z_signed z)).
    unfold read_exponent. simpl orb. cbv iota. apply parse_exponent_signed. }
  rewrite Hexp. reflexivity.
Qed.

(** What [Decimal.__str__] prints is a rendered text whose parts give
    the coefficient and the exponent back. *)
Lemma to_str_render (d : Decimal) :
  ∃ intpart frac e,
    to_str d = render (sign d) intpart frac e
    ∧ intpart ≠ "" ∧ all_digits intpart = true
    ∧ all_digits (default "" frac) = true
    ∧ to_N (intpart ++ default "" frac) = coeff d
    ∧ default 0 e - Z.of_nat (String.length (default "" frac)) = exp d.
Proof.
  unfold to_str.
  set (ds := of_N (coeff d)).
  set (len := Z.of_nat (String.length ds)).
  assert (Hds : all_digits ds = true) by apply all_digits_of_N.
  assert (Hval : to_N ds = coeff d) by apply to_N_of_N.
  assert (Hlen : 1 <= len).
  { subst len. pose proof (proj2 (of_N_shape (coeff d))) as Hne. fold ds in Hne.
    destruct ds; [contradiction | simpl String.length; lia]. }
  assert (Hnonempty : ∀ s, (1 <= String.length s)%nat → s ≠ "")
    by (intros [| ? ?] Hs; [simpl in Hs; lia | discriminate]).
  set (ld := exp d + len).
  set (e2 := if ld =? 1 then None else Some (ld - 1)).
  assert (He2 : (if ld =? 1 then "" else "E" ++ of_Z_signed (ld - 1))
                = match e2 with Some z => "E" ++ of_Z_signed z | None => "" end)
    by (subst e2; destruct (ld =? 1); reflexivity).
  assert (He2v : default 0 e2 = if ld =? 1 then 0 else ld - 1)
    by (subst e2; destruct (ld =? 1); reflexivity).
  destruct ((exp d <=? 0) && (-6 <? ld)) eqn:Hplain.
  - apply andb_true_iff in Hplain as [Hexp _]. apply Z.leb_le in Hexp.
    rewrite Z.eqb_refl.
    destruct (Z.leb_spec ld 0) as [Hld | Hld].
    + exists "0", (Some (repeat_char "0" (Z.to_nat (- ld)) ++ ds)), None.
      split; [reflexivity |]. split; [discriminate |]. split; [reflexivity |].
      cbn [default from_option id]. split; [| split].
      * rewrite all_digits_app, all_digits_repeat_0. exact Hds.
      * change ("0" ++ repeat_char "0" (Z.to_nat (- ld)) ++ ds)
          with (String "0" (repeat_char "0" (Z.to_nat (- ld)) ++ ds)).
        rewrite to_N_zero, to_N_zeros. exact Hval.
      * rewrite length_app_string, length_repeat_char. fold len ld. lia.
    + destruct (Z.leb_spec len ld) as [Hfull | Hcut].
      * assert (Hz : Z.to_nat (ld - len) = 0%nat) by lia.
        exists ds, None, None. rewrite Hz. cbn [repeat_char default from_option id].
        rewrite !app_empty_r.
        split; [unfold render; rewrite !app_empty_r; reflexivity |].
        split; [apply Hnonempty; lia |]. split; [exact Hds |].
        split; [reflexivity |]. split; [exact Hval |]. simpl. lia.
      * assert (Hk : (Z.to_nat ld <= String.length ds)%nat) by lia.
        exists (substring 0 (Z.to_nat ld) ds),
               (Some (substring (Z.to_nat ld) (String.length ds - Z.to_nat ld) ds)),
               None.
        split; [reflexivity |]. cbn [default from_option id].
        split; [apply Hnonempty; rewrite length_substring_head by exact Hk; lia |].
        split; [apply all_digits_substring, Hds |].
        split; [apply all_digits_substring, Hds |].
        split; [rewrite substring_split by exact Hk; exact Hval |].
        rewrite length_substring_tail by exact Hk. lia.
  - assert (H10 : (1 <=? 0) = false) by reflexivity. rewrite H10. rewrite He2.
    destruct (Z.leb_spec len 1) as [Hone | Hmany].
    + assert (Hz : Z.to_nat (1 - len) = 0%nat) by lia.
      exists ds, None, e2. rewrite Hz. cbn [repeat_char default from_option id].
      rewrite !app_empty_r.
      split; [reflexivity |].
      split; [apply Hnonempty; lia |]. split; [exact Hds |].
      split; [reflexivity |]. split; [exact Hval |].
      rewrite He2v. simpl String.length. destruct (Z.eqb_spec ld 1); lia.
    + assert (Hk : (Z.to_nat 1 <= String.length ds)%nat) by lia.
      exists (substring 0 (Z.to_nat 1) ds),
             (Some (substring (Z.to_nat 1) (String.length ds - Z.to_nat 1) ds)),
             e2.
      split; [reflexivity |]. cbn [default from_option id].
      split; [apply Hnonempty; rewrite length_substring_head by exact Hk; lia |].
      split; [apply all_digits_substring, Hds |].
      split; [apply all_digits_substring, Hds |].
      split; [rewrite substring_split by exact Hk; exact Hval |].
      rewrite length_substring_tail by exact Hk. rewrite He2v.
      destruct (Z.eqb_spec ld 1); lia.
Qed.

(** [Decimal(str(d))] is [d]. *)
Lemma of_str_to_str (d : Decimal) : of_str (to_str d) = Ok d.
Proof.
  destruct (to_str_render d) as (intpart & frac & e & -> & Hne & Hi & Hf & Hc & He).
  rewrite of_str_render by assumption. rewrite Hc, He. destruct d; reflexivity.
Qed.

End DecimalText.

(** ** Rule: the persisted record *)

Section RuleRecord.
Import models rule_spec.

Lemma value_zero : decimal.value (decimal.mkDecimal false 0 0) = 0%Qc.
Proof. apply Qc_is_canon. reflexivity. Qed.

(** The constructor accepts exactly the valid rules as they are. *)
Lemma post_init_valid (r : Rule) : __post_init__ r = Ok r ↔ valid r.
Proof.
  unfold __post_init__, valid, decimal.le. cbn [quantity target_price].
  rewrite value_zero. split.
  - destruct (Z.leb_spec (quantity r) 0) as [| Hq]; [discriminate |].
    destruct (Qc_leb _ _) eqn:Hp; [discriminate |].
    apply Qc_leb_gt in Hp. intros [= Hr].
    split; [| split; assumption].
    rewrite <- Hr at 2. reflexivity.
  - intros (Hs & Hq & Hp).
    destruct (Z.leb_spec (quantity r) 0) as [| _]; [lia |].
    apply Qc_leb_gt in Hp. rewrite Hp, Hs. destruct r; reflexivity.
Qed.

Lemma upper_char_idempotent (c : ascii) :
  pystr.upper_char (pystr.upper_char c) = pystr.upper_char c.
Proof. destruct c as [[|] [|] [|] [|] [|] [|] [|] [|]]; reflexivity. Qed.

Lemma upper_idempotent (s : string) : pystr.upper (pystr.upper s) = pystr.upper s.
Proof.
  induction s as [| c s IH]; [reflexivity |].
  unfold pystr.upper in *. simpl. rewrite upper_char_idempotent, IH. reflexivity.
Qed.

(** Every rule the constructor builds is valid. *)
Lemma post_init_makes_valid (r r' : Rule) : __post_init__ r = Ok r' → valid r'.
Proof.
  unfold __post_init__, valid, decimal.le. cbn [quantity target_price].
  rewrite value_zero.
  destruct (Z.leb_spec (quantity r) 0) as [| Hq]; [discriminate |].
  destruct (Qc_leb _ _) eqn:Hp; [discriminate |].
  apply Qc_leb_gt in Hp. intros [= <-]. simpl.
  split; [apply upper_idempotent | split; assumption].
Qed.

Lemma RuleAction_of_value (a : RuleAction) :
  RuleAction_of (PStr (action_value a)) = Ok a.
Proof. destruct a; reflexivity. Qed.

Lemma RuleCondition_of_value (c : RuleCondition) :
  RuleCondition_of (PStr (condition_value c)) = Ok c.
Proof. destruct c; reflexivity. Qed.

(** C8: for every valid rule [r], [Rule.from_dict(r.to_dict())] is a
    rule equal to [r], hence equal in every field: id, symbol, action,
    condition, target price (with the same digits), quantity, the two
    flags and the description. *)
Theorem to_dict_from_dict (uuid8 : string) (r : Rule) :
  valid r → from_dict uuid8 (to_dict r) = Ok r.
Proof.
  intros Hvalid. apply post_init_valid in Hvalid.
  unfold from_dict, getitem.
  assert (Hid : to_dict r !! "id" = Some (PStr (id r))) by reflexivity.
  assert (Hsymbol : to_dict r !! "symbol" = Some (PStr (symbol r))) by reflexivity.
  assert (Haction : to_dict r !! "action" = Some (PStr (action_value (action r))))
    by reflexivity.
  assert (Hcondition :
            to_dict r !! "condition" = Some (PStr (condition_value (condition r))))
    by reflexivity.
  assert (Hprice :
            to_dict r !! "target_price"
            = Some (PStr (decimal.to_str (target_price r)))) by reflexivity.
  assert (Hquantity : to_dict r !! "quantity" = Some (PInt (quantity r)))
    by reflexivity.
  assert (Henabled : to_dict r !! "enabled" = Some (PBool (enabled r)))
    by reflexivity.
  assert (Htriggered : to_dict r !! "triggered" = Some (PBool (triggered r)))
    by reflexivity.
  assert (Hdescription :
            to_dict r !! "description"
            = Some (match description r with Some d => PStr d | None => PNone end))
    by reflexivity.
  rewrite Hid, Hsymbol, Haction, Hcondition, Hprice, Hquantity, Henabled,
    Htriggered, Hdescription.
  cbn [bind default from_option Datatypes.id py_str py_int as_str as_bool].
  rewrite RuleAction_of_value, RuleCondition_of_value, of_str_to_str.
  cbn [bind].
  assert (Hdesc : as_opt_str (match description r with
                              | Some d => PStr d | None => PNone end)
                  = Ok (description r)) by (destruct (description r); reflexivity).
  rewrite Hdesc. cbn [bind].
  rewrite <- Hvalid. destruct r; reflexivity.
Qed.

(** The rule of the test suite: buy 10 AAPL below 170.00. *)
Example to_dict_from_dict_witness :
  let r := mkRule "AAPL" BUY BELOW (decimal.mkDecimal false 17000 (-2)) 10
             "test123" true false None in
  to_dict r !! "target_price" = Some (PStr "170.00")
  ∧ from_dict "0badf00d" (to_dict r) = Ok r.
Proof.
  intros r. split; [reflexivity |].
  apply to_dict_from_dict.
  split; [reflexivity | split; [reflexivity |]].
  apply Qc_ltb_lt. reflexivity.
Defined.

End RuleRecord.

(** ** SafetyCheck *)

Section Safety.
Import safety.

(** The verdict of [check_can_trade], check by check. *)
Lemma check_can_trade_cases (self : SafetyCheck) :
  let pnl := get_total_today_pnl (ledger self) in
  let n := get_trade_count_today (ledger self) in
  (_killed self = true ∧ check_can_trade self = (false, KillSwitchActive))
  ∨ (_killed self = false ∧ (pnl < - max_daily_loss (limits self))%Qc
     ∧ check_can_trade self = (false, DailyLossLimit pnl))
  ∨ (_killed self = false ∧ (- max_daily_loss (limits self) <= pnl)%Qc
     ∧ max_daily_trades (limits self) <= n
     ∧ check_can_trade self = (false, DailyTradeLimit n))
  ∨ (_killed self = false ∧ (- max_daily_loss (limits self) <= pnl)%Qc
     ∧ n < max_daily_trades (limits self)
     ∧ check_can_trade self = (true, OK)).
Proof.
  intros pnl n. unfold check_can_trade. fold pnl n.
  destruct (_killed self); [left; auto | right].
  destruct (Qc_ltb pnl _) eqn:Hl.
  - left. apply Qc_ltb_lt in Hl. auto.
  - right. apply Qc_ltb_ge in Hl.
    destruct (Z.leb_spec (max_daily_trades (limits self)) n); [left | right]; auto.
Qed.

(** The verdict of [check_order], check by check. *)
Lemma check_order_cases (self : SafetyCheck) (symbol : string) (quantity : Z)
    (price : Qc) (is_buy : bool) :
  let lim := limits self in
  let order_value := (Qc_of_Z quantity * price)%Qc in
  let new_value := (position_value (broker self) symbol + order_value)%Qc in
  let power := buying_power (get_account (broker self)) in
  let result := check_order self symbol quantity price is_buy in
  let can_trade := fst (check_can_trade self) in
  (can_trade = false ∧ result = (false, snd (check_can_trade self)))
  ∨ (can_trade = true ∧ (max_order_value lim < order_value)%Qc
     ∧ result = (false, OrderValueExceeds order_value (max_order_value lim)))
  ∨ (can_trade = true ∧ (order_value <= max_order_value lim)%Qc
     ∧ max_position_size lim < quantity
     ∧ result = (false, QuantityExceeds quantity (max_position_size lim)))
  ∨ (can_trade = true ∧ (order_value <= max_order_value lim)%Qc
     ∧ quantity <= max_position_size lim ∧ is_buy = true
     ∧ (max_position_value lim < new_value)%Qc
     ∧ result = (false, PositionValueExceeds new_value (max_position_value lim)))
  ∨ (can_trade = true ∧ (order_value <= max_order_value lim)%Qc
     ∧ quantity <= max_position_size lim ∧ is_buy = true
     ∧ (new_value <= max_position_value lim)%Qc ∧ (power < order_value)%Qc
     ∧ result = (false, InsufficientBuyingPower order_value power))
  ∨ (can_trade = true ∧ (order_value <= max_order_value lim)%Qc
     ∧ quantity <= max_position_size lim
     ∧ (is_buy = true →
        (new_value <= max_position_value lim)%Qc ∧ (order_value <= power)%Qc)
     ∧ result = (true, OK)).
Proof.
  intros lim order_value new_value power result can_trade.
  subst result can_trade. unfold check_order. fold lim order_value.
  destruct (check_can_trade self) as [can_trade reason]. simpl fst. simpl snd.
  destruct can_trade; simpl negb; cbv iota; [right | left; auto].
  destruct (Qc_ltb (max_order_value lim) order_value) eqn:Hov;
    [apply Qc_ltb_lt in Hov; left; auto | apply Qc_ltb_ge in Hov; right].
  destruct (Z.ltb_spec (max_position_size lim) quantity) as [Hq | Hq];
    [left; auto | right].
  destruct is_buy.
  2:{ do 2 right. repeat split; auto; discriminate. }
  fold new_value. fold power.
  destruct (Qc_ltb (max_position_value lim) new_value) eqn:Hpv;
    [apply Qc_ltb_lt in Hpv; left; auto 10 | apply Qc_ltb_ge in Hpv; right].
  destruct (Qc_ltb power order_value) eqn:Hbp;
    [apply Qc_ltb_lt in Hbp; left; auto 10 | apply Qc_ltb_ge in Hbp; right].
  auto 10.
Qed.


(** [kill()] latches: no call other than [reset()] clears the flag. *)
Lemma killed_until_reset (history : list call) (self : SafetyCheck) :
  _killed self = true →
  forallb (λ c, negb (is_reset c)) history = true →
  _killed (fold_left step history self) = true.
Proof.
  revert self. induction history as [| c history IH]; intros self Hk Hh.
  - exact Hk.
  - simpl in Hh. apply andb_true_iff in Hh as [Hc Hh].
    simpl. apply IH; [| exact Hh].
    destruct c; simpl; try assumption; discriminate.
Qed.

(** C3: after [kill()], and as long as [reset()] is not called, every
    [check_can_trade] is denied with the kill-switch reason, whatever
    the ledger says at that time; after [reset()] the verdict is that
    of the daily limits alone. *)
Theorem kill_switch_wins (self : SafetyCheck) (history : list call) :
  forallb (λ c, negb (is_reset c)) history = true →
  let killed := fold_left step history (kill self) in
  check_can_trade killed = (false, KillSwitchActive)
  ∧ (∀ b l, check_can_trade (step killed (World b l)) = (false, KillSwitchActive))
  ∧ is_killed (reset killed) = false
  ∧ snd (check_can_trade (reset killed)) ≠ KillSwitchActive
  ∧ ((- max_daily_loss (limits killed) <= get_total_today_pnl (ledger killed))%Qc →
     get_trade_count_today (ledger killed) < max_daily_trades (limits killed) →
     check_can_trade (reset killed) = (true, OK)).
Proof.
  intros Hh killed.
  assert (Hk : _killed killed = true)
    by (apply killed_until_reset; [reflexivity | exact Hh]).
  repeat split.
  - unfold check_can_trade. rewrite Hk. reflexivity.
  - intros b l. unfold check_can_trade. simpl. rewrite Hk. reflexivity.
  - destruct (check_can_trade_cases (reset killed))
      as [[H _] | [(_ & _ & H) | [(_ & _ & _ & H) | (_ & _ & _ & H)]]];
      [discriminate H | rewrite H; discriminate ..].
  - intros Hp Hn.
    destruct (check_can_trade_cases (reset killed))
      as [[H _] | [(_ & H & _) | [(_ & _ & H & _) | (_ & _ & _ & H)]]];
      simpl in H.
    + discriminate H.
    + exfalso. exact (Qclt_not_le _ _ H Hp).
    + lia.
    + exact H.
Qed.


(** C10: for a sell order the verdict and its reason are a function of
    the kill flag, the limits, the two ledger aggregates, the quantity
    and the price: the broker, and the symbol, play no part. *)
Theorem sell_ignores_broker (s1 s2 : SafetyCheck) (symbol1 symbol2 : string)
    (quantity : Z) (price : Qc) :
  _killed s1 = _killed s2 →
  limits s1 = limits s2 →
  get_total_today_pnl (ledger s1) = get_total_today_pnl (ledger s2) →
  get_trade_count_today (ledger s1) = get_trade_count_today (ledger s2) →
  check_order s1 symbol1 quantity price false
  = check_order s2 symbol2 quantity price false.
Proof.
  intros Hk Hl Hp Hn. unfold check_order, check_can_trade.
  rewrite Hk, Hl, Hp, Hn. reflexivity.
Qed.


(** A gate with the default limits whose ledger breaks both daily
    limits, and a history without [reset()]. *)
Example kill_switch_wins_witness :
  let self :=
    __init__ (mkBroker (λ _, None) (mkAccount (Qc_of_Z 0)))
      (mkTradeLedger (Qc_of_Z (-1000)) 99) None in
  let history :=
    [CheckCanTrade; Kill; GetStatus;
     World (mkBroker (λ _, None) (mkAccount (Qc_of_Z 5)))
       (mkTradeLedger (Qc_of_Z (-2000)) 120);
     CheckOrder "AAPL" 1 (Qc_of_Z 10) true] in
  let killed := fold_left step history (kill self) in
  Qc_ltb (get_total_today_pnl (ledger killed)) (- max_daily_loss (limits killed)) = true
  ∧ (max_daily_trades (limits killed) <=? get_trade_count_today (ledger killed)) = true
  ∧ check_can_trade killed = (false, KillSwitchActive).
Proof.
  intros self history killed.
  split; [reflexivity | split; [reflexivity |]].
  exact (proj1 (kill_switch_wins self history eq_refl)).
Defined.


(** One cent below the limit is rejected. *)
Example daily_loss_one_cent_below :
  check_can_trade
    (__init__ (mkBroker (λ _, None) (mkAccount (Qc_of_Z 0)))
       (mkTradeLedger (Q2Qc (-50001 # 100)) 10) None)
  = (false, DailyLossLimit (Q2Qc (-50001 # 100))).
Proof. reflexivity. Qed.

(** Two gates that agree on everything but the broker: one holds no
    position and has no buying power, the other holds a large position. *)
Example sell_ignores_broker_witness :
  check_order
    (__init__ (mkBroker (λ _, None) (mkAccount (Qc_of_Z 0)))
       (mkTradeLedger (Qc_of_Z 0) 3) None)
    "AAPL" 10 (Qc_of_Z 170) false
  = check_order
      (__init__ (mkBroker (λ _, Some (mkPosition (Qc_of_Z 99999)))
                   (mkAccount (Qc_of_Z 12345)))
         (mkTradeLedger (Qc_of_Z 0) 3) None)
      "TSLA" 10 (Qc_of_Z 170) false.
Proof.
  apply sell_ignores_broker; reflexivity.
Defined.

End Safety.

(** ** Backtester: maximum drawdown *)

Section Drawdown.
Import backtest backtest_spec.





Lemma div_nonzero (x y : Qc) : y ≠ 0%Qc → div x y = Ok (x / y)%Qc.
Proof.
  intros Hy. unfold div. destruct (Qc_eqb y 0) eqn:E; [| reflexivity].
  apply Qc_eqb_eq in E. contradiction.
Qed.





(** With a positive first sample the loop never divides by zero. *)
Lemma fold_drawdown_total (rest : list Qc) :
  ∀ peak mdd, (0 < peak)%Qc →
    ∃ pm, fold_left drawdown_step rest (Ok (peak, mdd)) = Ok pm.
Proof.
  induction rest as [| x rest IH]; intros peak mdd Hpos.
  - exists (peak, mdd). reflexivity.
  - cbn [fold_left]. unfold drawdown_step at 2. cbn [bind].
    set (peak' := if Qc_ltb peak x then x else peak).
    assert (Hpos' : (0 < peak')%Qc).
    { subst peak'. destruct (Qc_ltb peak x) eqn:Hlt; [| exact Hpos].
      apply Qc_ltb_lt in Hlt. eapply Qclt_trans; eassumption. }
    rewrite div_nonzero.
    2:{ intros Hz. rewrite Hz in Hpos'. exact (Qclt_not_eq _ _ Hpos' eq_refl). }
    cbn [bind]. apply IH. exact Hpos'.
Qed.

Lemma max_drawdown_of_total (c0 : Qc) (rest : list Qc) :
  (0 < c0)%Qc → ∃ m, max_drawdown_of (c0 :: rest) = Ok m.
Proof.
  intros Hpos. unfold max_drawdown_of.
  destruct (fold_drawdown_total (c0 :: rest) c0 0%Qc Hpos) as [pm Hpm].
  rewrite Hpm. exists (snd pm). reflexivity.
Qed.

End Drawdown.

(** ** Backtester.run: what a result is made of *)

Section RunInversion.
Import models backtest.

Lemma fold_simulate_Raise (f : Result Loop → nat → Result Loop) (days : list nat) (e : exn) :
  (∀ d, f (Raise e) d = Raise e) → fold_left f days (Raise e) = Raise e.
Proof.
  intros Hf. induction days as [| d days IH]; [reflexivity |].
  simpl. rewrite Hf. exact IH.
Qed.

(** Every simulated day appends one sample to the equity curve. *)
Lemma simulate_days_curve rnd volatility start_date rules symbols (days : list nat) :
  ∀ l0 l,
    fold_left
      (λ acc day, let? l := acc in
                  simulate_day rnd volatility start_date rules symbols l day)
      days (Ok l0) = Ok l →
    ∃ samples, equity_curve l = equity_curve l0 ++ samples
               ∧ length samples = length days.
Proof.
  induction days as [| d days IH]; intros l0 l Hfold.
  - injection Hfold as <-. exists []. rewrite app_nil_r. auto.
  - cbn [fold_left bind] in Hfold.
    destruct (simulate_day rnd volatility start_date rules symbols l0 d)
      as [l1 |] eqn:Hday.
    2:{ rewrite fold_simulate_Raise in Hfold by reflexivity. discriminate. }
    destruct (IH l1 l Hfold) as (samples & Hc & Hlen).
    unfold simulate_day in Hday.
    destruct (update_prices _ _ _ _ _) as [prices1 |]; [| discriminate].
    cbn [bind] in Hday.
    destruct (process_rules _ _ _ _) as [sim1 |]; [| discriminate].
    cbn [bind] in Hday.
    destruct (equity_of _ _) as [equity |]; [| discriminate].
    cbn [bind] in Hday. injection Hday as <-. simpl in Hc.
    exists (equity :: samples). rewrite Hc, <- app_assoc. simpl.
    split; [reflexivity | lia].
Qed.

(** The equity curve is seeded with the initial capital and has one
    more sample per simulated day. *)
Lemma simulate_curve self rnd start_date rules days volatility l :
  simulate self rnd start_date rules days volatility = Ok l →
  ∃ samples, equity_curve l = bt_initial_capital self :: samples
             ∧ length samples = Z.to_nat days.
Proof.
  unfold simulate. intros H.
  destruct (simulate_days_curve _ _ _ _ _ _ _ _ H) as (samples & Hc & Hlen).
  exists samples. rewrite length_seq in Hlen. auto.
Qed.

(** A result of [run], field by field. *)
Lemma run_inv self rnd now0 now1 rules days volatility res rules' :
  run self rnd now0 now1 rules days volatility = Ok (res, rules') →
  rules ≠ [] ∧ rules' = rules
  ∧ ∃ l, simulate self rnd (now0 - days) rules days volatility = Ok l
      ∧ trades res = sim_trades (sim l)
      ∧ total_trades res = Z.of_nat (length (trades res))
      ∧ (winning_trades res, losing_trades res) = pair_trades (trades res)
      ∧ win_rate res = win_rate_of (winning_trades res) (losing_trades res)
      ∧ max_drawdown_of (equity_curve l) = Ok (max_drawdown res)
      ∧ final_capital res = List.last (equity_curve l) 0%Qc
      ∧ initial_capital res = bt_initial_capital self.
Proof.
  unfold run. destruct rules as [| r rules0]; [discriminate |].
  set (rules := r :: rules0).
  destruct (simulate _ _ _ _ _ _) as [l |] eqn:Hsim; [| discriminate]. cbn [bind].
  destruct (div _ _) as [pct |]; [| discriminate]. cbn [bind].
  destruct (pair_trades _) as [winning losing] eqn:Hpair.
  destruct (max_drawdown_of _) as [mdd |] eqn:Hmdd; [| discriminate]. cbn [bind].
  intros [= <- <-]. split; [discriminate | split; [reflexivity |]].
  exists l. simpl. rewrite Hpair, Hmdd. repeat split; reflexivity.
Qed.


(** The scenario runs to its end. *)
Lemma demo_outcome : demo.outcome = Ok (demo.result, demo.rules).
Proof. vm_compute. reflexivity. Qed.

End RunInversion.


(** ** Backtester: rules are read, never latched *)

Section Latch.
Import models backtest latch_spec.


(** On a rule that is enabled and not yet triggered the backtester and
    [Rule.check] agree; they part on a rule whose latch is set. *)
Lemma fires_check (rule : Rule) (p : decimal.Decimal) :
  enabled rule = true → triggered rule = false →
  check rule p = fires rule (decimal.value p).
Proof.
  intros He Ht. unfold check, fires, decimal.le, decimal.ge.
  rewrite He, Ht. destruct (condition rule); reflexivity.
Qed.

Lemma Qc_of_Z_nonzero (z : Z) : z ≠ 0 → Qc_of_Z z ≠ 0%Qc.
Proof.
  intros Hz H. unfold Qc_of_Z in H. apply Q2Qc_eq_iff in H.
  apply Hz. apply inject_Z_injective. exact H.
Qed.




Lemma process_rule_with_triggered b prices current_date st rule :
  process_rule prices current_date st (with_triggered b rule)
  = process_rule prices current_date st rule.
Proof. reflexivity. Qed.




End Latch.

(** ** Backtester.run returns *)

Section RunReturns.
Import models backtest backtest_spec.

Lemma init_prices_covers (rnd : Random) (rules : list Rule) :
  ∀ r, r ∈ rules → is_Some (init_prices rnd rules !! symbol r).
Proof.
  unfold init_prices.
  set (f := λ (prices : gmap string Qc) (rule : Rule),
              match prices !! symbol rule with
              | Some _ => prices
              | None =>
                  <[symbol rule := (decimal.value (target_price rule)
                                    * (1 + uniform rnd (symbol rule)))%Qc]> prices
              end).
  assert (Hkeep : ∀ rules acc s, is_Some (acc !! s) → is_Some (fold_left f rules acc !! s)).
  { intros rs. induction rs as [| r rs IH]; intros acc s Hs; [exact Hs |].
    simpl. apply IH. unfold f. destruct (acc !! symbol r) eqn:E; [exact Hs |].
    destruct (decide (symbol r = s)) as [-> | Hne].
    - rewrite lookup_insert_eq. eauto.
    - rewrite lookup_insert_ne by exact Hne. exact Hs. }
  generalize (∅ : gmap string Qc).
  induction rules as [| r0 rules IH]; intros acc r Hr.
  - apply elem_of_nil in Hr. contradiction.
  - simpl. apply elem_of_cons in Hr as [-> | Hr]; [| apply IH, Hr].
    apply Hkeep. unfold f. destruct (acc !! symbol r0) eqn:E.
    + rewrite E. eauto.
    + rewrite lookup_insert_eq. eauto.
Qed.

Lemma update_prices_returns rnd volatility day (symbols : list string) :
  ∀ prices,
    (∀ s, s ∈ symbols → is_Some (prices !! s)) →
    ∃ prices', update_prices rnd volatility day symbols prices = Ok prices'
               ∧ ∀ s, is_Some (prices !! s) → is_Some (prices' !! s).
Proof.
  unfold update_prices.
  induction symbols as [| s0 symbols IH]; intros prices Hcov.
  - exists prices. split; [reflexivity | auto].
  - cbn [fold_left bind].
    destruct (Hcov s0 (list_elem_of_here _ _)) as [p Hp].
    unfold update_price, price_of. rewrite Hp. cbn [bind].
    rewrite lookup_insert_eq. cbn [bind].
    set (prices1 := <[s0 := _]> (<[s0 := _]> prices)).
    assert (Hkeep : ∀ s, is_Some (prices !! s) → is_Some (prices1 !! s)).
    { intros s Hs. subst prices1. destruct (decide (s0 = s)) as [-> | Hne].
      - rewrite lookup_insert_eq. eauto.
      - rewrite !lookup_insert_ne by exact Hne. exact Hs. }
    destruct (IH prices1) as (prices' & Hok & Hkeep').
    { intros s Hs. apply Hkeep, Hcov, list_elem_of_further, Hs. }
    exists prices'. split; [exact Hok | auto].
Qed.

Lemma execute_returns current_date p prices st rule :
  positions_ok prices st → is_Some (prices !! symbol rule) → 0 < quantity rule →
  ∃ st', execute current_date p st rule = Ok st' ∧ positions_ok prices st'.
Proof.
  intros Hok Hprice Hq. unfold execute. destruct (action rule).
  - destruct (Qc_leb _ _); [| eauto].
    destruct (positions st !! symbol rule) as [[old_qty old_price] |] eqn:Hpos.
    + destruct (Hok _ _ _ Hpos) as [Hold _].
      rewrite div_nonzero by (apply Qc_of_Z_nonzero; lia). cbn [bind].
      eexists. split; [reflexivity |]. intros s q a. cbn [positions].
      destruct (decide (symbol rule = s)) as [<- | Hne].
      * rewrite lookup_insert_eq. intros [= <- <-]. split; [lia | exact Hprice].
      * rewrite lookup_insert_ne by exact Hne. apply Hok.
    + cbn [bind]. eexists. split; [reflexivity |]. intros s q a. cbn [positions].
      destruct (decide (symbol rule = s)) as [<- | Hne].
      * rewrite lookup_insert_eq. intros [= <- <-]. split; [lia | exact Hprice].
      * rewrite lookup_insert_ne by exact Hne. apply Hok.
  - destruct (positions st !! symbol rule) as [[qty avg_price] |] eqn:Hpos; [| eauto].
    destruct (Hok _ _ _ Hpos) as [Hqty _].
    eexists. split; [reflexivity |]. intros s q a. cbn [positions].
    destruct (Z.leb_spec qty (Z.min qty (quantity rule))) as [Hall | Hpart].
    + destruct (decide (symbol rule = s)) as [<- | Hne].
      * rewrite lookup_delete_eq. discriminate.
      * rewrite lookup_delete_ne by exact Hne. apply Hok.
    + destruct (decide (symbol rule = s)) as [<- | Hne].
      * rewrite lookup_insert_eq. intros [= <- <-]. split; [lia | exact Hprice].
      * rewrite lookup_insert_ne by exact Hne. apply Hok.
Qed.

Lemma process_rules_returns prices current_date (rules : list Rule) :
  ∀ st,
    positions_ok prices st →
    (∀ r, r ∈ rules → is_Some (prices !! symbol r) ∧ 0 < quantity r) →
    ∃ st', process_rules prices current_date rules st = Ok st'
           ∧ positions_ok prices st'.
Proof.
  unfold process_rules.
  induction rules as [| r rules IH]; intros st Hok Hrules; [eauto |].
  cbn [fold_left bind].
  destruct (Hrules r (list_elem_of_here _ _)) as [[p Hp] Hq].
  assert (Hstep : ∃ st1, process_rule prices current_date st r = Ok st1
                         ∧ positions_ok prices st1).
  { unfold process_rule, price_of. destruct (enabled r); cbn [negb]; [| eauto].
    rewrite Hp. cbn [bind]. destruct (fires r p); [| eauto].
    apply execute_returns; eauto. }
  destruct Hstep as (st1 & -> & Hok1).
  apply IH; [exact Hok1 |].
  intros r' Hr'. apply Hrules, list_elem_of_further, Hr'.
Qed.

Lemma equity_of_returns prices st :
  positions_ok prices st → ∃ equity, equity_of prices st = Ok equity.
Proof.
  intros Hok. unfold equity_of.
  assert (Hfold : ∃ v,
             map_fold
               (λ s (qa : Z * Qc) (acc : Result Qc),
                  let? sum := acc in
                  let? p := price_of prices s in
                  Ok (sum + p * Qc_of_Z (fst qa))%Qc)
               (Ok 0%Qc) (positions st) = Ok v).
  { assert (Hcov : ∀ s qa, positions st !! s = Some qa → is_Some (prices !! s))
      by (intros s [q a] H; exact (proj2 (Hok _ _ _ H))).
    revert Hcov. generalize (positions st) as m. intros m.
    apply (map_fold_weak_ind
             (λ (r : Result Qc) (m : gmap string (Z * Qc)),
                (∀ s qa, m !! s = Some qa → is_Some (prices !! s)) → ∃ v, r = Ok v)).
    - eauto.
    - intros s qa m0 r Hfresh IH Hcov.
      destruct IH as [v ->].
      { intros s' qa' H'. apply (Hcov s' qa').
        rewrite lookup_insert_ne; [exact H' |]. intros <-. congruence. }
      destruct (Hcov s qa) as [p Hp]; [apply lookup_insert_eq |].
      cbn [bind]. unfold price_of. rewrite Hp. cbn [bind]. eauto. }
  destruct Hfold as [v ->]. cbn [bind]. eauto.
Qed.

Lemma simulate_returns self rnd start_date rules days volatility :
  (∀ r, r ∈ rules → 0 < quantity r) →
  ∃ l, simulate self rnd start_date rules days volatility = Ok l.
Proof.
  intros Hq. unfold simulate.
  set (l0 := mkLoop (init_prices rnd rules)
               (mkSim (bt_initial_capital self) ∅ []) [bt_initial_capital self]).
  assert (Hinv0 : (∀ r, r ∈ rules → is_Some (prices l0 !! symbol r))
                  ∧ positions_ok (prices l0) (sim l0)).
  { split; [apply init_prices_covers |]. intros s q a H. discriminate H. }
  revert Hinv0. generalize l0. generalize (seq 0 (Z.to_nat days)) as ds.
  induction ds as [| d ds IH]; intros l [Hcov Hok]; [eauto |].
  cbn [fold_left bind]. unfold simulate_day at 2.
  destruct (update_prices_returns rnd volatility d (symbols_of rules) (prices l))
    as (prices1 & -> & Hkeep).
  { intros s Hs. unfold symbols_of in Hs.
    apply elem_of_remove_dups, list_elem_of_fmap in Hs as (r & -> & Hr).
    apply Hcov, Hr. }
  cbn [bind].
  destruct (process_rules_returns prices1 (start_date + Z.of_nat d) rules (sim l))
    as (sim1 & -> & Hok1).
  { intros s q a H. destruct (Hok _ _ _ H) as [Hpos Hs]. split; [exact Hpos | auto]. }
  { intros r Hr. split; [apply Hkeep, Hcov, Hr | apply Hq, Hr]. }
  cbn [bind].
  destruct (equity_of_returns prices1 sim1 Hok1) as [equity ->]. cbn [bind].
  apply IH. split; [| exact Hok1].
  intros r Hr. apply Hkeep, Hcov, Hr.
Qed.

(** X27: with at least one rule, rules of positive quantities and a
    positive initial capital, [run] returns a result, and the rules as
    they were: no lookup fails and no division traps, whatever the
    random source yields. *)
Lemma run_returns self rnd now0 now1 rules days volatility :
  rules ≠ [] → (∀ r, r ∈ rules → 0 < quantity r) →
  (0 < bt_initial_capital self)%Qc →
  ∃ res, run self rnd now0 now1 rules days volatility = Ok (res, rules).
Proof.
  intros Hne Hq Hcap. unfold run.
  destruct rules as [| r0 rules0]; [contradiction |].
  set (rules := r0 :: rules0) in *.
  destruct (simulate_returns self rnd (now0 - days) rules days volatility Hq)
    as [l Hsim].
  rewrite Hsim. cbn [bind].
  rewrite div_nonzero.
  2:{ intros Hz. rewrite Hz in Hcap. exact (Qclt_not_eq _ _ Hcap eq_refl). }
  cbn [bind]. destruct (pair_trades _) as [winning losing].
  destruct (simulate_curve _ _ _ _ _ _ _ Hsim) as (samples & -> & _).
  destruct (max_drawdown_of_total (bt_initial_capital self) samples Hcap) as [m ->].
  cbn [bind]. eauto.
Qed.

End RunReturns.

(** ** Backtester: pairing of buys and sells *)

Section Pairing.
Import backtest pairing_spec.













(** A sell that finds no buy left completes no pair and is not counted:
    after buy, sell, sell the second sell is neither winning nor losing. *)
Example unmatched_sell_not_counted :
  let trade side price := mkBacktestTrade 0 "AAPL" side 5 (Qc_of_Z price) "r" in
  pair_trades [trade "buy" 100; trade "sell" 105; trade "sell" 120] = (1, 0).
Proof. reflexivity. Qed.


End Pairing.

Section DrawdownClaim.
Import models backtest backtest_spec.



End DrawdownClaim.

(** ** TradingEngine: the loop and a stop request *)

Section Engine.
Import engine engine_spec.

Lemma steps_Returned poll env k now :
  steps poll env k (Returned now) = Returned now.
Proof. induction k as [| k IH]; [reflexivity | exact IH]. Qed.

Lemma steps_last poll env k st :
  steps poll env (S k) st = step poll env (steps poll env k st).
Proof.
  revert st. induction k as [| k IH]; intros st; [reflexivity |].
  change (steps poll env (S (S k)) st) with (steps poll env (S k) (step poll env st)).
  rewrite IH. reflexivity.
Qed.

(** A cycle is entered, and a sleep is entered, only at a time when no
    stop has been requested yet. *)
Lemma reachable_unstopped poll env t0 st :
  reachable poll env t0 st →
  match st with
  | InCycle cycle_start _ => _stop_requested env cycle_start = false
  | InSleep since _ _ => _stop_requested env since = false
  | _ => True
  end.
Proof.
  intros [k Hk]. destruct k as [| k]; [subst st; exact I |].
  rewrite steps_last in Hk. subst st.
  destruct (steps poll env k (AtWhile t0 0)) as [now n | c n | c now n | t d n | now];
    simpl; try exact I.
  - destruct (_stop_requested env now) eqn:E; simpl; [exact I | exact E].
  - destruct (0 <? _); simpl; [| exact I].
    destruct (_stop_requested env now) eqn:E; simpl; [exact I | exact E].
Qed.

(** The loop started at time 0 with a poll interval of 60, cycles that
    take 1, and a stop requested at time 30, in the middle of the first
    sleep: the sleep is entered at time 1 for 59, and the loop returns
    at time 60 only. *)
Lemma sleep_runs_to_its_end :
  let env := mkEnv (Some 30) (λ _, 1) in
  steps 60 env 3 (AtWhile 0 0) = InSleep 1 59 0
  ∧ ∀ k now, steps 60 env k (InSleep 1 59 0) = Returned now → now = 60.
Proof.
  intros env. split; [reflexivity |].
  intros [| [| k]] now H; [discriminate H | discriminate H |].
  change (steps 60 env (S (S k)) (InSleep 1 59 0))
    with (steps 60 env k (Returned 60)) in H.
  rewrite steps_Returned in H. injection H as <-. reflexivity.
Qed.

(** C9 as stated fails: a stop requested in mid-sleep does not cut the
    sleep short. *)
Lemma stop_cuts_sleep_short_fails :
  ¬ stop_cuts_sleep_short 60 (mkEnv (Some 30) (λ _, 1)) 0.
Proof.
  intros Hclaim. destruct sleep_runs_to_its_end as [Hreach Honly].
  destruct (Hclaim 1 59 0%nat 30) as (k & now & Hret & Hlt).
  - exists 3%nat. exact Hreach.
  - reflexivity.
  - lia.
  - apply Honly in Hret. lia.
Qed.

(** C9, amended: a stop requested while the loop sleeps leaves the
    sleep running to its end; the loop then tests its condition and
    returns, without another cycle.  The loop condition is tested before
    every cycle, a cycle or a sleep is entered only while no stop has
    been requested, and after a cycle during which a stop was requested
    the loop skips the sleep and returns at once. *)
Theorem stop_waits_for_sleep (poll_interval : Z) (env : Env)
    (since sleep_time : Z) (n : nat) (s : Z) :
  stop_at env = Some s → since < s <= since + sleep_time →
  (step poll_interval env (InSleep since sleep_time n)
     = AtWhile (since + sleep_time) (S n)
   ∧ steps poll_interval env 2 (InSleep since sleep_time n)
     = Returned (since + sleep_time))
  ∧ (∀ now m,
       step poll_interval env (AtWhile now m)
       = if _stop_requested env now then Returned now else InCycle now m)
  ∧ (∀ t0 st, reachable poll_interval env t0 st →
       match st with
       | InCycle cycle_start _ => _stop_requested env cycle_start = false
       | InSleep since' _ _ => _stop_requested env since' = false
       | _ => True
       end)
  ∧ (∀ cycle_start now m, s <= now →
       steps poll_interval env 2 (AtSleepTest cycle_start now m) = Returned now).
Proof.
  intros Hs Hin. unfold _stop_requested. rewrite Hs.
  split; [| split; [| split]].
  - split; [reflexivity |]. simpl. unfold _stop_requested. rewrite Hs.
    destruct (Z.leb_spec s (since + sleep_time)); [reflexivity | lia].
  - intros now m. simpl. unfold _stop_requested. rewrite Hs.
    destruct (s <=? now); reflexivity.
  - intros t0 st Hreach. apply reachable_unstopped in Hreach.
    unfold _stop_requested in Hreach. rewrite Hs in Hreach. exact Hreach.
  - intros cycle_start now m Hcn. simpl. unfold _stop_requested. rewrite Hs.
    destruct (Z.leb_spec s now) as [_ | Hlt]; [| lia].
    rewrite andb_false_r. simpl. unfold _stop_requested. rewrite Hs.
    destruct (Z.leb_spec s now) as [_ | Hlt]; [reflexivity | lia].
Qed.

(** The loop of the counterexample: the stop of time 30 is acted upon
    at time 60. *)
Example stop_waits_for_sleep_witness :
  steps 60 (mkEnv (Some 30) (λ _, 1)) 2 (InSleep 1 59 0) = Returned 60.
Proof.
  pose proof (stop_waits_for_sleep 60 (mkEnv (Some 30) (λ _, 1)) 1 59 0 30
                eq_refl ltac:(lia)) as [[_ H] _].
  exact H.
Defined.

End Engine.

(** ** Rule records: reading any record *)

Section RuleRecordMore.
Import models rule_spec samples.

(** Reading back the record of a rule is constructing the rule again. *)
Lemma from_dict_to_dict_init (uuid8 : string) (r : Rule) :
  from_dict uuid8 (to_dict r) = __post_init__ r.
Proof.
  unfold from_dict, getitem.
  assert (Hid : to_dict r !! "id" = Some (PStr (id r))) by reflexivity.
  assert (Hsymbol : to_dict r !! "symbol" = Some (PStr (symbol r))) by reflexivity.
  assert (Haction : to_dict r !! "action" = Some (PStr (action_value (action r))))
    by reflexivity.
  assert (Hcondition :
            to_dict r !! "condition" = Some (PStr (condition_value (condition r))))
    by reflexivity.
  assert (Hprice :
            to_dict r !! "target_price"
            = Some (PStr (decimal.to_str (target_price r)))) by reflexivity.
  assert (Hquantity : to_dict r !! "quantity" = Some (PInt (quantity r)))
    by reflexivity.
  assert (Henabled : to_dict r !! "enabled" = Some (PBool (enabled r)))
    by reflexivity.
  assert (Htriggered : to_dict r !! "triggered" = Some (PBool (triggered r)))
    by reflexivity.
  assert (Hdescription :
            to_dict r !! "description"
            = Some (match description r with Some d => PStr d | None => PNone end))
    by reflexivity.
  rewrite Hid, Hsymbol, Haction, Hcondition, Hprice, Hquantity, Henabled,
    Htriggered, Hdescription.
  cbn [bind default from_option Datatypes.id py_str py_int as_str as_bool].
  rewrite RuleAction_of_value, RuleCondition_of_value, of_str_to_str.
  cbn [bind].
  destruct (description r) eqn:Hd; cbn [as_opt_str bind];
    destruct r; simpl in Hd; subst; reflexivity.
Qed.

Lemma bind_Ok {A B} (m : Result A) (k : A → Result B) (b : B) :
  bind m k = Ok b → ∃ a, m = Ok a ∧ k a = Ok b.
Proof. destruct m as [a |]; [eauto | discriminate]. Qed.

(** What a successful [from_dict] has read. *)
Lemma from_dict_Ok (uuid8 : string) (data : gmap string PyVal) (r : Rule) :
  from_dict uuid8 data = Ok r →
  ∃ symbol_v action_v condition_v price_v quantity_v
    symbol action condition target_price quantity id enabled triggered description,
    data !! "symbol" = Some symbol_v ∧ symbol_v = PStr symbol
    ∧ data !! "action" = Some action_v ∧ RuleAction_of action_v = Ok action
    ∧ data !! "condition" = Some condition_v
    ∧ RuleCondition_of condition_v = Ok condition
    ∧ data !! "target_price" = Some price_v
    ∧ decimal.of_str (py_str price_v) = Ok target_price
    ∧ data !! "quantity" = Some quantity_v ∧ py_int quantity_v = Ok quantity
    ∧ as_str (default (PStr uuid8) (data !! "id")) = Ok id
    ∧ as_bool (default (PBool true) (data !! "enabled")) = Ok enabled
    ∧ as_bool (default (PBool false) (data !! "triggered")) = Ok triggered
    ∧ as_opt_str (default PNone (data !! "description")) = Ok description
    ∧ __post_init__ (mkRule symbol action condition target_price quantity id
                       enabled triggered description) = Ok r.
Proof.
  unfold from_dict, getitem. intros H.
  destruct (data !! "symbol") as [symbol_v |]; [| discriminate]. cbn [bind] in H.
  destruct (data !! "action") as [action_v |]; [| discriminate]. cbn [bind] in H.
  apply bind_Ok in H as (action & Ha & H).
  destruct (data !! "condition") as [condition_v |]; [| discriminate].
  cbn [bind] in H. apply bind_Ok in H as (condition & Hc & H).
  destruct (data !! "target_price") as [price_v |]; [| discriminate].
  cbn [bind] in H. apply bind_Ok in H as (target_price & Hp & H).
  destruct (data !! "quantity") as [quantity_v |]; [| discriminate].
  cbn [bind] in H. apply bind_Ok in H as (quantity & Hq & H).
  apply bind_Ok in H as (id & Hi & H).
  apply bind_Ok in H as (symbol & Hs & H).
  apply bind_Ok in H as (enabled & He & H).
  apply bind_Ok in H as (triggered & Ht & H).
  apply bind_Ok in H as (description & Hd & H).
  assert (symbol_v = PStr symbol) as Hsv
    by (destruct symbol_v; try discriminate; congruence).
  exists symbol_v, action_v, condition_v, price_v, quantity_v,
    symbol, action, condition, target_price, quantity, id, enabled, triggered,
    description.
  repeat split; assumption || reflexivity.
Qed.

(** X1: the constructor of [Rule] rejects a quantity that is not
    positive first, then a target price that is not positive; otherwise
    it returns the rule with its symbol in upper case and every other
    field as given, and that rule is valid and is accepted unchanged by
    the constructor. *)
Theorem post_init_spec (r : Rule) :
  (quantity r <= 0 →
   __post_init__ r = Raise (ValueError "Quantity must be positive"))
  ∧ (0 < quantity r → (decimal.value (target_price r) <= 0)%Qc →
     __post_init__ r = Raise (ValueError "Target price must be positive"))
  ∧ (0 < quantity r → (0 < decimal.value (target_price r))%Qc →
     let r' := mkRule (pystr.upper (symbol r)) (action r) (condition r)
                 (target_price r) (quantity r) (id r) (enabled r) (triggered r)
                 (description r) in
     __post_init__ r = Ok r' ∧ valid r' ∧ __post_init__ r' = Ok r').
Proof.
  split; [| split].
  - intros Hq. unfold __post_init__. cbn [quantity].
    destruct (Z.leb_spec (quantity r) 0); [reflexivity | lia].
  - intros Hq Hp. unfold __post_init__, decimal.le. cbn [quantity target_price].
    rewrite value_zero. destruct (Z.leb_spec (quantity r) 0); [lia |].
    apply Qc_leb_le in Hp. rewrite Hp. reflexivity.
  - intros Hq Hp r'.
    assert (Hr : __post_init__ r = Ok r').
    { unfold __post_init__, decimal.le. cbn [quantity target_price].
      rewrite value_zero. destruct (Z.leb_spec (quantity r) 0); [lia |].
      apply Qc_leb_gt in Hp. rewrite Hp. reflexivity. }
    split; [exact Hr |].
    pose proof (post_init_makes_valid _ _ Hr) as Hv.
    split; [exact Hv | apply post_init_valid, Hv].
Qed.

(** A lower-case symbol is stored in upper case. *)
Example post_init_spec_witness :
  __post_init__
    (mkRule "aapl" BUY BELOW (decimal.mkDecimal false 17000 (-2)) 10 "r1" true false None)
  = Ok (mkRule "AAPL" BUY BELOW (decimal.mkDecimal false 17000 (-2)) 10 "r1" true
          false None).
Proof.
  refine (proj1 (proj2 (proj2 (post_init_spec
    (mkRule "aapl" BUY BELOW (decimal.mkDecimal false 17000 (-2)) 10 "r1" true
       false None))) _ _)).
  - reflexivity.
  - apply Qc_ltb_lt. reflexivity.
Defined.

(** X2: reading back the record of any rule, valid or not, gives what
    constructing the rule gives: the same error for a rule the
    constructor rejects, and otherwise the rule in normal form (symbol
    in upper case), whose own record reads back as itself. *)
Theorem reload_is_construction (uuid8 : string) (r : Rule) :
  match __post_init__ r with
  | Ok r' => from_dict uuid8 (to_dict r) = Ok r'
             ∧ from_dict uuid8 (to_dict r') = Ok r'
  | Raise e => from_dict uuid8 (to_dict r) = Raise e
  end.
Proof.
  rewrite from_dict_to_dict_init.
  destruct (__post_init__ r) as [r' |] eqn:Hr; [| reflexivity].
  split; [reflexivity |]. rewrite from_dict_to_dict_init.
  apply post_init_valid. eapply post_init_makes_valid. exact Hr.
Qed.

(** X3: every rule [from_dict] returns is valid (upper-case symbol,
    positive quantity, positive target price), whatever the record
    held, and writing it out and reading it back gives the same rule. *)
Theorem from_dict_valid (uuid8 uuid8' : string) (data : gmap string PyVal) (r : Rule) :
  from_dict uuid8 data = Ok r →
  valid r ∧ from_dict uuid8' (to_dict r) = Ok r.
Proof.
  intros H. apply from_dict_Ok in H.
  destruct H as (? & ? & ? & ? & ? & ? & ? & ? & ? & ? & ? & ? & ? & ? & H).
  destruct H as (_ & _ & _ & _ & _ & _ & _ & _ & _ & _ & _ & _ & _ & _ & H).
  apply post_init_makes_valid in H. split; [exact H |].
  rewrite from_dict_to_dict_init. apply post_init_valid. exact H.
Qed.

Lemma sample_record_reads : from_dict "0badf00d" sample_record = Ok sample_rule.
Proof. vm_compute. reflexivity. Qed.

Example from_dict_valid_witness :
  valid sample_rule ∧ from_dict "feedbeef" (to_dict sample_rule) = Ok sample_rule.
Proof.
  exact (from_dict_valid "0badf00d" "feedbeef" sample_record sample_rule
           sample_record_reads).
Defined.

(** X4: a record that lacks a required key is refused with [KeyError]
    for the first key missing, in the order symbol, action, condition,
    target_price, quantity; a value that names no action or no condition
    is refused with [ValueError] before the later keys are looked up. *)
Theorem from_dict_missing_key (uuid8 : string) (data : gmap string PyVal) :
  (data !! "symbol" = None → from_dict uuid8 data = Raise (KeyError "symbol"))
  ∧ (is_Some (data !! "symbol") → data !! "action" = None →
     from_dict uuid8 data = Raise (KeyError "action"))
  ∧ (is_Some (data !! "symbol") →
     ∀ v, data !! "action" = Some v → v ≠ PStr "buy" → v ≠ PStr "sell" →
          ∃ msg, from_dict uuid8 data = Raise (ValueError msg))
  ∧ (is_Some (data !! "symbol") →
     data !! "action" = Some (PStr "buy") ∨ data !! "action" = Some (PStr "sell") →
     (data !! "condition" = None →
      from_dict uuid8 data = Raise (KeyError "condition"))
     ∧ (∀ v, data !! "condition" = Some v → v ≠ PStr "below" → v ≠ PStr "above" →
             ∃ msg, from_dict uuid8 data = Raise (ValueError msg))
     ∧ (data !! "condition" = Some (PStr "below")
        ∨ data !! "condition" = Some (PStr "above") →
        (data !! "target_price" = None →
         from_dict uuid8 data = Raise (KeyError "target_price"))
        ∧ (∀ v d, data !! "target_price" = Some v →
                  decimal.of_str (py_str v) = Ok d →
                  data !! "quantity" = None →
                  from_dict uuid8 data = Raise (KeyError "quantity")))).
Proof.
  unfold from_dict, getitem.
  split; [intros ->; reflexivity |].
  split; [intros [sv ->] ->; reflexivity |].
  split.
  { intros [sv ->] v -> Hb Hs. cbn [bind].
    assert (Ha : RuleAction_of v = Raise (ValueError "not a valid RuleAction")).
    { destruct v as [s | | |]; try reflexivity. unfold RuleAction_of.
      destruct (String.eqb_spec s "buy") as [-> | _]; [congruence |].
      destruct (String.eqb_spec s "sell") as [-> | _]; [congruence | reflexivity]. }
    rewrite Ha. eexists. reflexivity. }
  intros [sv ->] Ha. cbn [bind].
  assert (Ha' : ∃ av a, data !! "action" = Some av ∧ RuleAction_of av = Ok a)
    by (destruct Ha as [-> | ->]; eauto).
  destruct Ha' as (av & a & Hav & Haa). rewrite Hav. cbn [bind].
  rewrite Haa. cbn [bind].
  split; [intros ->; reflexivity |].
  split.
  { intros v -> Hb Ha'. cbn [bind].
    assert (Hc : RuleCondition_of v = Raise (ValueError "not a valid RuleCondition")).
    { destruct v as [s | | |]; try reflexivity. unfold RuleCondition_of.
      destruct (String.eqb_spec s "below") as [-> | _]; [congruence |].
      destruct (String.eqb_spec s "above") as [-> | _]; [congruence | reflexivity]. }
    rewrite Hc. eexists. reflexivity. }
  intros Hc.
  assert (Hc' : ∃ cv c, data !! "condition" = Some cv ∧ RuleCondition_of cv = Ok c)
    by (destruct Hc as [-> | ->]; eauto).
  destruct Hc' as (cv & c & Hcv & Hcc). rewrite Hcv. cbn [bind].
  rewrite Hcc. cbn [bind].
  split; [intros ->; reflexivity |].
  intros v d -> Hd ->. cbn [bind]. rewrite Hd. reflexivity.
Qed.

(** X5: the optional keys of a record have defaults: without "id" the
    rule takes the generated identifier, without "enabled" it is
    enabled, without "triggered" it is not triggered, without
    "description" (or with a null one) it has none; and the symbol of
    the rule is the symbol of the record in upper case. *)
Theorem from_dict_defaults (uuid8 : string) (data : gmap string PyVal) (r : Rule) :
  from_dict uuid8 data = Ok r →
  (data !! "id" = None → id r = uuid8)
  ∧ (data !! "enabled" = None → enabled r = true)
  ∧ (data !! "triggered" = None → triggered r = false)
  ∧ (data !! "description" = None ∨ data !! "description" = Some PNone →
     description r = None)
  ∧ (∀ s, data !! "symbol" = Some (PStr s) → symbol r = pystr.upper s).
Proof.
  intros H. apply from_dict_Ok in H.
  destruct H as (sv & av & cv & pv & qv & s & a & c & tp & q & i & e & t & d & H).
  destruct H as (Hs & -> & _ & _ & _ & _ & _ & _ & _ & _ & Hi & He & Ht & Hd & H).
  unfold __post_init__ in H. cbn [quantity target_price] in H.
  destruct (q <=? 0); [discriminate |].
  destruct (decimal.le _ _); [discriminate |].
  injection H as <-. cbn [id enabled triggered description symbol].
  repeat split.
  - intros Hn. rewrite Hn in Hi. simpl in Hi. congruence.
  - intros Hn. rewrite Hn in He. simpl in He. congruence.
  - intros Hn. rewrite Hn in Ht. simpl in Ht. congruence.
  - intros [Hn | Hn]; rewrite Hn in Hd; simpl in Hd; congruence.
  - intros s' Hs'. rewrite Hs in Hs'. congruence.
Qed.

(** The record of the test suite has none of the optional keys but "id". *)
Example from_dict_defaults_witness :
  enabled sample_rule = true ∧ triggered sample_rule = false
  ∧ description sample_rule = None ∧ symbol sample_rule = "AAPL".
Proof.
  pose proof (from_dict_defaults "0badf00d" sample_record sample_rule
                sample_record_reads) as (_ & He & Ht & Hd & Hs).
  split; [exact (He eq_refl) |].
  split; [exact (Ht eq_refl) |].
  split; [exact (Hd (or_introl eq_refl)) |].
  exact (Hs "aapl" eq_refl).
Defined.

End RuleRecordMore.

(** ** The rules file *)

Section Loader.
Import models rule_spec loader loader_spec samples.

Lemma from_dicts_to_dicts (uuids : nat → string) (rules : list Rule) :
  Forall valid rules → ∀ i, from_dicts uuids i (map to_dict rules) = Ok rules.
Proof.
  induction 1 as [| r rules Hr _ IH]; intros i; [reflexivity |].
  cbn [map from_dicts]. rewrite from_dict_to_dict_init.
  apply post_init_valid in Hr. rewrite Hr. cbn [bind]. rewrite IH. reflexivity.
Qed.

Lemma from_dicts_valid (uuids : nat → string) (records : list (gmap string PyVal)) :
  ∀ i rules, from_dicts uuids i records = Ok rules → Forall valid rules.
Proof.
  induction records as [| data records IH]; intros i rules H.
  - injection H as <-. constructor.
  - cbn [from_dicts] in H. apply bind_Ok in H as (r & Hr & H).
    apply bind_Ok in H as (rs & Hrs & H). injection H as <-.
    constructor; [| eapply IH; exact Hrs].
    apply from_dict_Ok in Hr.
    destruct Hr as (? & ? & ? & ? & ? & ? & ? & ? & ? & ? & ? & ? & ? & ? & Hr).
    destruct Hr as (_ & _ & _ & _ & _ & _ & _ & _ & _ & _ & _ & _ & _ & _ & Hr).
    eapply post_init_makes_valid. exact Hr.
Qed.

Lemma load_rules_all_valid uuids file rules :
  load_rules uuids file = Ok rules → Forall valid rules.
Proof.
  destruct file as [| [records |]]; simpl.
  - intros [= <-]. constructor.
  - apply from_dicts_valid.
  - intros [= <-]. constructor.
Qed.

Lemma load_saved uuids rules file :
  Forall valid rules → load_rules uuids (save_rules rules file) = Ok rules.
Proof. intros H. simpl. apply from_dicts_to_dicts, H. Qed.

(** Finding a rule by its id. *)
Lemma find_rule_id rid rules r : find_rule rid rules = Some r → id r = rid.
Proof.
  unfold find_rule. intros H. apply find_some in H as [_ H].
  apply String.eqb_eq, H.
Qed.

Lemma find_rule_In rid rules r : find_rule rid rules = Some r → In r rules.
Proof. unfold find_rule. intros H. apply find_some in H as [H _]. exact H. Qed.

Lemma index_of_find rid rules :
  match index_of rid rules with
  | Some i => ∃ r, rules !! i = Some r ∧ id r = rid ∧ find_rule rid rules = Some r
  | None => find_rule rid rules = None ∧ ¬ In rid (map id rules)
  end.
Proof.
  induction rules as [| r0 rules IH]; [split; [reflexivity | intros []] |].
  cbn [index_of find_rule find map].
  destruct (String.eqb_spec (id r0) rid) as [Heq | Hne].
  - exists r0. auto.
  - fold (find_rule rid rules). destruct (index_of rid rules) as [i |]; simpl.
    + exact IH.
    + destruct IH as [Hf Hn]. split; [exact Hf |]. intros [H | H]; contradiction.
Qed.

Lemma find_rule_app rid rules rule :
  find_rule rid (rules ++ [rule])
  = match find_rule rid rules with
    | Some r => Some r
    | None => if String.eqb (id rule) rid then Some rule else None
    end.
Proof.
  unfold find_rule. induction rules as [| r0 rules IH]; [reflexivity |].
  simpl. destruct (String.eqb (id r0) rid); [reflexivity | exact IH].
Qed.

Lemma find_rule_upsert_same rule rules :
  find_rule (id rule) (upsert rule rules) = Some rule.
Proof.
  unfold upsert. pose proof (index_of_find (id rule) rules) as H.
  destruct (index_of (id rule) rules) as [i |] eqn:Hi.
  - clear H. revert i Hi. induction rules as [| r0 rules IH]; intros i Hi;
      [discriminate |].
    cbn [index_of] in Hi. destruct (String.eqb_spec (id r0) (id rule)) as [Heq | Hne].
    + injection Hi as <-. simpl. unfold find_rule. simpl.
      rewrite String.eqb_refl. reflexivity.
    + destruct (index_of (id rule) rules) as [j |]; [| discriminate].
      injection Hi as <-. simpl. unfold find_rule. simpl.
      apply String.eqb_neq in Hne. rewrite Hne. apply (IH j eq_refl).
  - destruct H as [Hf _]. rewrite find_rule_app, Hf, String.eqb_refl. reflexivity.
Qed.

Lemma find_rule_upsert_other rid rule rules :
  rid ≠ id rule → find_rule rid (upsert rule rules) = find_rule rid rules.
Proof.
  intros Hne. unfold upsert.
  destruct (index_of (id rule) rules) as [i |] eqn:Hi.
  - revert i Hi. induction rules as [| r0 rules IH]; intros i Hi; [discriminate |].
    cbn [index_of] in Hi. destruct (String.eqb_spec (id r0) (id rule)) as [Heq | Hne0].
    + injection Hi as <-. simpl. unfold find_rule. simpl.
      assert (H1 : String.eqb (id rule) rid = false) by (apply String.eqb_neq; congruence).
      assert (H2 : String.eqb (id r0) rid = false) by (apply String.eqb_neq; congruence).
      rewrite H1, H2. reflexivity.
    + destruct (index_of (id rule) rules) as [j |]; [| discriminate].
      injection Hi as <-. simpl. unfold find_rule. simpl.
      destruct (String.eqb (id r0) rid); [reflexivity |]. apply (IH j eq_refl).
  - rewrite find_rule_app.
    assert (H1 : String.eqb (id rule) rid = false) by (apply String.eqb_neq; congruence).
    rewrite H1. destruct (find_rule rid rules); reflexivity.
Qed.

Lemma upsert_idempotent rule rules : upsert rule (upsert rule rules) = upsert rule rules.
Proof.
  unfold upsert at 2 3.
  destruct (index_of (id rule) rules) as [i |] eqn:Hi.
  - assert (H : index_of (id rule) (<[i := rule]> rules) = Some i).
    { revert i Hi. induction rules as [| r0 rules IH]; intros i Hi; [discriminate |].
      cbn [index_of] in Hi.
      destruct (String.eqb_spec (id r0) (id rule)) as [Heq | Hne0].
      - injection Hi as <-. simpl. rewrite String.eqb_refl. reflexivity.
      - destruct (index_of (id rule) rules) as [j |]; [| discriminate].
        injection Hi as <-. simpl. apply String.eqb_neq in Hne0. rewrite Hne0.
        rewrite (IH j eq_refl). reflexivity. }
    unfold upsert. rewrite H. apply list_insert_insert_eq.
  - assert (H : index_of (id rule) (rules ++ [rule]) = Some (length rules)).
    { clear -Hi. induction rules as [| r0 rules IH].
      - simpl. rewrite String.eqb_refl. reflexivity.
      - cbn [index_of] in Hi. simpl.
        destruct (String.eqb (id r0) (id rule)); [discriminate |].
        destruct (index_of (id rule) rules); [discriminate |].
        rewrite IH by reflexivity. reflexivity. }
    unfold upsert. rewrite H.
    rewrite insert_app_r_alt by lia. rewrite Nat.sub_diag. reflexivity.
Qed.

Lemma upsert_valid rule rules :
  valid rule → Forall valid rules → Forall valid (upsert rule rules).
Proof.
  intros Hr Hrs. unfold upsert. destruct (index_of (id rule) rules) as [i |].
  - apply Forall_insert; assumption.
  - apply Forall_app. split; [assumption | constructor; [assumption | constructor]].
Qed.

Lemma save_rule_upsert uuids rule file rules :
  load_rules uuids file = Ok rules →
  save_rule uuids rule file = Ok (save_rules (upsert rule rules) file).
Proof. intros H. unfold save_rule. rewrite H. reflexivity. Qed.

Lemma load_upserted uuids rule rules file :
  valid rule → Forall valid rules →
  load_rules uuids (save_rules (upsert rule rules) file) = Ok (upsert rule rules).
Proof. intros Hr Hrs. apply load_saved, upsert_valid; assumption. Qed.

(** X6: rules written by [save_rules] are read back by [load_rules] as
    they were, in the same order, provided they are valid; what the file
    held before does not matter. *)
Theorem save_rules_load_rules (uuids : nat → string) (rules : list Rule) (file : File) :
  Forall valid rules → load_rules uuids (save_rules rules file) = Ok rules.
Proof.
  intros Hvalid. unfold save_rules, load_rules.
  apply from_dicts_to_dicts. exact Hvalid.
Qed.

Lemma sample_rules_valid : Forall valid [sample_rule; sample_sell].
Proof.
  repeat constructor; reflexivity.
Qed.

Example save_rules_load_rules_witness :
  load_rules no_uuids sample_file = Ok [sample_rule; sample_sell].
Proof.
  exact (save_rules_load_rules no_uuids [sample_rule; sample_sell] Missing
           sample_rules_valid).
Defined.

(** X7: whatever the file holds, the rules [load_rules] returns are
    all valid, and saving them again gives a file that loads as the same
    rules. *)
Theorem load_rules_valid (uuids uuids' : nat → string) (file file' : File)
    (rules : list Rule) :
  load_rules uuids file = Ok rules →
  Forall valid rules ∧ load_rules uuids' (save_rules rules file') = Ok rules.
Proof.
  intros H. apply load_rules_all_valid in H. split; [exact H | apply load_saved, H].
Qed.

(** A file written by hand, with a symbol in lower case and no flags. *)
Example load_rules_valid_witness :
  load_rules no_uuids (Doc (Some [sample_record])) = Ok [sample_rule]
  ∧ Forall valid [sample_rule]
  ∧ load_rules no_uuids (save_rules [sample_rule] Missing) = Ok [sample_rule].
Proof.
  assert (H : load_rules no_uuids (Doc (Some [sample_record])) = Ok [sample_rule])
    by (vm_compute; reflexivity).
  split; [exact H |].
  exact (load_rules_valid no_uuids no_uuids _ Missing _ H).
Defined.



(** X9: [save_rule] is an upsert by id.  On a file that loads, saving
    a valid rule succeeds; afterwards [get_rule] finds that rule under
    its id and finds under any other id what was there before, and
    saving the same rule once more leaves the file as it is. *)
Theorem save_rule_upserts (uuids : nat → string) (rule : Rule) (file : File)
    (rules : list Rule) :
  load_rules uuids file = Ok rules → valid rule →
  ∃ file',
    save_rule uuids rule file = Ok file'
    ∧ (∀ u, get_rule u (id rule) file' = Ok (Some rule))
    ∧ (∀ u rid, rid ≠ id rule → get_rule u rid file' = Ok (find_rule rid rules))
    ∧ (∀ u, save_rule u rule file' = Ok file').
Proof.
  intros Hload Hvalid. exists (save_rules (upsert rule rules) file).
  pose proof (load_rules_all_valid _ _ _ Hload) as Hvalids.
  split; [apply save_rule_upsert, Hload |].
  assert (Hl : ∀ u, load_rules u (save_rules (upsert rule rules) file)
                    = Ok (upsert rule rules))
    by (intros u; apply load_upserted; assumption).
  split; [| split].
  - intros u. unfold get_rule. rewrite Hl. cbn [bind].
    rewrite find_rule_upsert_same. reflexivity.
  - intros u rid Hne. unfold get_rule. rewrite Hl. cbn [bind].
    rewrite find_rule_upsert_other by exact Hne. reflexivity.
  - intros u. rewrite (save_rule_upsert u rule _ _ (Hl u)).
    rewrite upsert_idempotent. reflexivity.
Qed.

Example save_rule_upserts_witness :
  ∃ file',
    save_rule no_uuids (set_enabled false sample_rule) sample_file = Ok file'
    ∧ (∀ u, get_rule u "test123" file' = Ok (Some (set_enabled false sample_rule)))
    ∧ (∀ u rid, rid ≠ "test123" →
         get_rule u rid file' = Ok (find_rule rid [sample_rule; sample_sell]))
    ∧ (∀ u, save_rule u (set_enabled false sample_rule) file' = Ok file').
Proof.
  apply (save_rule_upserts no_uuids (set_enabled false sample_rule) sample_file
           [sample_rule; sample_sell]).
  - exact (load_saved no_uuids _ Missing sample_rules_valid).
  - repeat split; reflexivity.
Defined.

Lemma map_id_upsert rule rules :
  map id (upsert rule rules)
  = match index_of (id rule) rules with
    | Some _ => map id rules
    | None => map id rules ++ [id rule]
    end.
Proof.
  unfold upsert. pose proof (index_of_find (id rule) rules) as H.
  destruct (index_of (id rule) rules) as [i |].
  - destruct H as (r & Hr & Hid & _).
    change (map id (<[i := rule]> rules)) with (id <$> <[i := rule]> rules).
    rewrite list_fmap_insert. apply list_insert_id.
    rewrite list_lookup_fmap, Hr. simpl. congruence.
  - rewrite map_app. reflexivity.
Qed.

(** X10: [save_rule] never makes two rules share an id: if the ids of
    the stored rules are distinct, they are distinct after the save, and
    the number of rules grows by one exactly when the id is new. *)
Theorem save_rule_keeps_ids_unique (uuids uuids' : nat → string) (rule : Rule)
    (file file' : File) (rules : list Rule) :
  load_rules uuids file = Ok rules → valid rule →
  save_rule uuids rule file = Ok file' →
  ∃ rules',
    load_rules uuids' file' = Ok rules'
    ∧ (NoDup (map id rules) → NoDup (map id rules'))
    ∧ (In (id rule) (map id rules) → length rules' = length rules)
    ∧ (¬ In (id rule) (map id rules) → length rules' = S (length rules)).
Proof.
  intros Hload Hvalid Hsave.
  rewrite (save_rule_upsert _ _ _ _ Hload) in Hsave. injection Hsave as <-.
  exists (upsert rule rules).
  split; [apply load_upserted; [exact Hvalid | eapply load_rules_all_valid, Hload] |].
  pose proof (index_of_find (id rule) rules) as Hidx.
  split.
  - intros Hnd. rewrite map_id_upsert.
    destruct (index_of (id rule) rules) as [i |]; [exact Hnd |].
    destruct Hidx as [_ Hnotin].
    apply NoDup_app. split; [exact Hnd |]. split.
    + intros x Hx Hx'. apply list_elem_of_singleton in Hx'. subst x.
      apply Hnotin. apply list_elem_of_In. exact Hx.
    + apply NoDup_singleton.
  - unfold upsert. destruct (index_of (id rule) rules) as [i |].
    + destruct Hidx as (r & Hr & Hid & _). rewrite length_insert.
      split; [reflexivity |]. intros Hn.
      exfalso. apply Hn. rewrite <- Hid. apply in_map.
      apply list_elem_of_In. eapply list_elem_of_lookup_2. exact Hr.
    + destruct Hidx as [_ Hnotin]. rewrite length_app. simpl.
      split; [contradiction | lia].
Qed.

Example save_rule_keeps_ids_unique_witness :
  ∃ rules',
    load_rules no_uuids
      (save_rules (upsert (set_enabled false sample_rule) [sample_rule; sample_sell])
         sample_file) = Ok rules'
    ∧ (NoDup (map id [sample_rule; sample_sell]) → NoDup (map id rules'))
    ∧ (In "test123" (map id [sample_rule; sample_sell]) → length rules' = 2%nat)
    ∧ (¬ In "test123" (map id [sample_rule; sample_sell]) → length rules' = 3%nat).
Proof.
  apply (save_rule_keeps_ids_unique no_uuids no_uuids (set_enabled false sample_rule)
           sample_file _ [sample_rule; sample_sell]).
  - exact (load_saved no_uuids _ Missing sample_rules_valid).
  - repeat split; reflexivity.
  - reflexivity.
Defined.

Lemma length_without rid rules :
  (length (without rid rules) <= length rules)%nat
  ∧ (length (without rid rules) = length rules ↔ ¬ In rid (map id rules)).
Proof.
  unfold without. induction rules as [| r rules [IHle IHeq]];
    [simpl; split; [lia | split; [intros _ [] | reflexivity]] |].
  simpl. destruct (String.eqb_spec (id r) rid) as [Heq | Hne]; simpl.
  - split; [lia |]. split; [lia |]. intros H. exfalso. apply H. left. exact Heq.
  - split; [lia |]. split.
    + intros H [H' | H']; [contradiction |]. apply IHeq; [lia | exact H'].
    + intros H. f_equal. apply IHeq. intros H'. apply H. right. exact H'.
Qed.

Lemma find_rule_without_same rid rules : find_rule rid (without rid rules) = None.
Proof.
  unfold find_rule, without. induction rules as [| r rules IH]; [reflexivity |].
  simpl. destruct (String.eqb (id r) rid) eqn:E; simpl; [exact IH |].
  rewrite E. exact IH.
Qed.

Lemma find_rule_without_other rid rid' rules :
  rid' ≠ rid → find_rule rid' (without rid rules) = find_rule rid' rules.
Proof.
  intros Hne. unfold find_rule, without.
  induction rules as [| r rules IH]; [reflexivity |].
  simpl. destruct (String.eqb_spec (id r) rid) as [Heq | Hne0]; simpl.
  - destruct (String.eqb_spec (id r) rid'); [congruence | exact IH].
  - destruct (String.eqb (id r) rid'); [reflexivity | exact IH].
Qed.

Lemma without_valid rid rules : Forall valid rules → Forall valid (without rid rules).
Proof.
  intros H. unfold without. apply Forall_forall. intros r Hr.
  apply list_elem_of_In, filter_In in Hr as [Hr _].
  rewrite Forall_forall in H. apply H, list_elem_of_In, Hr.
Qed.

(** X11: [delete_rule] answers false and leaves the file untouched
    when no stored rule has the id; otherwise it answers true and the new
    file holds the other rules, in their order: the id is no longer
    found, and every other id is found as before. *)
Theorem delete_rule_spec (uuids : nat → string) (rid : string) (file : File)
    (rules : list Rule) :
  load_rules uuids file = Ok rules →
  (¬ In rid (map id rules) → delete_rule uuids rid file = Ok (false, file))
  ∧ (In rid (map id rules) →
     ∃ file',
       delete_rule uuids rid file = Ok (true, file')
       ∧ ∀ u, load_rules u file' = Ok (without rid rules)
              ∧ get_rule u rid file' = Ok None
              ∧ ∀ rid', rid' ≠ rid →
                  get_rule u rid' file' = Ok (find_rule rid' rules)).
Proof.
  intros Hload. unfold delete_rule. rewrite Hload. cbn [bind].
  fold (without rid rules).
  destruct (length_without rid rules) as [Hle Heq].
  split.
  - intros Hn. apply Heq in Hn. rewrite Hn, Nat.eqb_refl. reflexivity.
  - intros Hin.
    destruct (Nat.eqb_spec (length (without rid rules)) (length rules)) as [He | _].
    { apply Heq in He. contradiction. }
    exists (save_rules (without rid rules) file). split; [reflexivity |].
    intros u.
    assert (Hl : load_rules u (save_rules (without rid rules) file)
                 = Ok (without rid rules)).
    { apply load_saved, without_valid. eapply load_rules_all_valid, Hload. }
    split; [exact Hl |]. unfold get_rule. rewrite Hl. cbn [bind].
    split; [rewrite find_rule_without_same; reflexivity |].
    intros rid' Hne. rewrite find_rule_without_other by exact Hne. reflexivity.
Qed.

Example delete_rule_spec_witness :
  delete_rule no_uuids "fake-id" sample_file = Ok (false, sample_file)
  ∧ ∃ file',
      delete_rule no_uuids "test123" sample_file = Ok (true, file')
      ∧ ∀ u, load_rules u file' = Ok (without "test123" [sample_rule; sample_sell])
             ∧ get_rule u "test123" file' = Ok None
             ∧ ∀ rid', rid' ≠ "test123" →
                 get_rule u rid' file' = Ok (find_rule rid' [sample_rule; sample_sell]).
Proof.
  pose proof (delete_rule_spec no_uuids "fake-id" sample_file _
                (load_saved no_uuids _ Missing sample_rules_valid)) as [Hno _].
  pose proof (delete_rule_spec no_uuids "test123" sample_file _
                (load_saved no_uuids _ Missing sample_rules_valid)) as [_ Hyes].
  split.
  - apply Hno. simpl. intros [H | [H | []]]; discriminate H.
  - apply Hyes. simpl. left. reflexivity.
Defined.

(** Changing a stored rule: what [enable_rule] and [mark_triggered] do
    with the change [f] of the rule found. *)
Lemma update_stored (f : Rule → Rule) (uuids uuids' : nat → string) (rid : string)
    (file : File) (rules : list Rule) :
  load_rules uuids file = Ok rules → load_rules uuids' file = Ok rules →
  (let? rule := get_rule uuids rid file in
   match rule with
   | None => Ok (false, file)
   | Some rule => let? file' := save_rule uuids' (f rule) file in Ok (true, file')
   end)
  = match find_rule rid rules with
    | None => Ok (false, file)
    | Some r => Ok (true, save_rules (upsert (f r) rules) file)
    end.
Proof.
  intros H1 H2. unfold get_rule. rewrite H1. cbn [bind].
  destruct (find_rule rid rules) as [r |]; [| reflexivity].
  rewrite (save_rule_upsert _ _ _ _ H2). reflexivity.
Qed.

Lemma stored_after_update (f : Rule → Rule) (rid : string) (file : File)
    (rules : list Rule) (r : Rule) :
  (∀ r, id (f r) = id r) → (∀ r, valid r → valid (f r)) →
  Forall valid rules → find_rule rid rules = Some r →
  ∀ u,
    get_rule u rid (save_rules (upsert (f r) rules) file) = Ok (Some (f r))
    ∧ ∀ rid', rid' ≠ rid →
        get_rule u rid' (save_rules (upsert (f r) rules) file)
        = Ok (find_rule rid' rules).
Proof.
  intros Hid Hval Hvalid Hfind u.
  pose proof (find_rule_id _ _ _ Hfind) as Hrid.
  assert (Hr : valid r).
  { rewrite Forall_forall in Hvalid. apply Hvalid, list_elem_of_In.
    eapply find_rule_In, Hfind. }
  unfold get_rule. rewrite load_upserted by auto. cbn [bind].
  split.
  - rewrite <- Hrid, <- (Hid r). rewrite find_rule_upsert_same. reflexivity.
  - intros rid' Hne. rewrite find_rule_upsert_other; [reflexivity |].
    rewrite Hid. congruence.
Qed.

Lemma set_triggered_valid r : valid r → valid (set_triggered r).
Proof. intros H. exact H. Qed.


(** X12: [mark_triggered] answers false and writes nothing when the id
    is not stored.  Otherwise it answers true, the rule stored under the
    id is the former one with [triggered] set, the other ids are found as
    before, and the stored rule no longer triggers at any price.  (The
    file is read twice; both readings are taken to give the same rules,
    as they do when every record has an id.) *)
Theorem mark_triggered_latches (uuids uuids' : nat → string) (rid : string)
    (file : File) (rules : list Rule) :
  load_rules uuids file = Ok rules → load_rules uuids' file = Ok rules →
  match find_rule rid rules with
  | None => mark_triggered uuids uuids' rid file = Ok (false, file)
  | Some r =>
      ∃ file',
        mark_triggered uuids uuids' rid file = Ok (true, file')
        ∧ ∀ u,
            get_rule u rid file' = Ok (Some (set_triggered r))
            ∧ (∀ rid', rid' ≠ rid → get_rule u rid' file' = Ok (find_rule rid' rules))
            ∧ (∀ r' p, get_rule u rid file' = Ok (Some r') → check r' p = false)
  end.
Proof.
  intros H1 H2. unfold mark_triggered.
  rewrite (update_stored set_triggered _ _ _ _ _ H1 H2).
  destruct (find_rule rid rules) as [r |] eqn:Hfind; [| reflexivity].
  eexists. split; [reflexivity |]. intros u.
  destruct (stored_after_update set_triggered rid file rules r
              (λ _, eq_refl) set_triggered_valid
              (load_rules_all_valid _ _ _ H1) Hfind u) as [Hget Hother].
  split; [exact Hget |]. split; [exact Hother |].
  intros r' p Hr'. rewrite Hget in Hr'. injection Hr' as <-.
  unfold check. simpl. rewrite orb_true_r. reflexivity.
Qed.

Example mark_triggered_latches_witness :
  ∃ file',
    mark_triggered no_uuids no_uuids "test123" sample_file = Ok (true, file')
    ∧ ∀ u,
        get_rule u "test123" file' = Ok (Some (set_triggered sample_rule))
        ∧ (∀ rid', rid' ≠ "test123" →
             get_rule u rid' file' = Ok (find_rule rid' [sample_rule; sample_sell]))
        ∧ (∀ r' p, get_rule u "test123" file' = Ok (Some r') → check r' p = false).
Proof.
  exact (mark_triggered_latches no_uuids no_uuids "test123" sample_file
           [sample_rule; sample_sell]
           (load_saved no_uuids _ Missing sample_rules_valid)
           (load_saved no_uuids _ Missing sample_rules_valid)).
Defined.





End Loader.

(** ** SafetyCheck: status, and how verdicts compare *)

Section SafetyMore.
Import safety.

Lemma Qc_of_Z_le (a b : Z) : a <= b → (Qc_of_Z a <= Qc_of_Z b)%Qc.
Proof.
  intros H. unfold Qc_of_Z, Qcle. simpl. rewrite !Qred_correct.
  rewrite <- Zle_Qle. exact H.
Qed.


(** When [check_order] allows an order. *)
Lemma check_order_allowed (self : SafetyCheck) (symbol : string) (quantity : Z)
    (price : Qc) (is_buy : bool) :
  let lim := limits self in
  let order_value := (Qc_of_Z quantity * price)%Qc in
  check_order self symbol quantity price is_buy = (true, OK)
  ↔ fst (check_can_trade self) = true
    ∧ (order_value <= max_order_value lim)%Qc
    ∧ quantity <= max_position_size lim
    ∧ (is_buy = true →
       (position_value (broker self) symbol + order_value <= max_position_value lim)%Qc
       ∧ (order_value <= buying_power (get_account (broker self)))%Qc).
Proof.
  intros lim order_value.
  pose proof (check_order_cases self symbol quantity price is_buy) as H.
  simpl in H. fold lim order_value in H.
  destruct H as [H | [H | [H | [H | [H | H]]]]];
    repeat match goal with H : _ ∧ _ |- _ => destruct H end;
    match goal with H : check_order _ _ _ _ _ = _ |- _ => rewrite H end;
    (split; [try discriminate | order_cases]).
  intros _. repeat split; order_cases.
Qed.


(** X16: at a price that is not negative, an order that is allowed
    stays allowed when its quantity is lowered, whatever the side; zero
    and negative quantities are not refused as such. *)
Theorem check_order_monotone (self : SafetyCheck) (symbol : string)
    (quantity quantity' : Z) (price : Qc) (is_buy : bool) :
  (0 <= price)%Qc → quantity' <= quantity →
  check_order self symbol quantity price is_buy = (true, OK) →
  check_order self symbol quantity' price is_buy = (true, OK).
Proof.
  intros Hp Hq H. apply check_order_allowed in H as (Hc & Ho & Hs & Hb).
  apply check_order_allowed.
  assert (Hle : (Qc_of_Z quantity' * price <= Qc_of_Z quantity * price)%Qc)
    by (apply Qcmult_le_compat_r; [apply Qc_of_Z_le, Hq | exact Hp]).
  split; [exact Hc |]. split; [eapply Qcle_trans; eassumption |].
  split; [lia |]. intros Hbuy. destruct (Hb Hbuy) as [Hv Hpow]. split.
  - eapply Qcle_trans; [| exact Hv]. apply Qcplus_le_compat; [apply Qcle_refl | exact Hle].
  - eapply Qcle_trans; eassumption.
Qed.

Example check_order_monotone_witness :
  check_order
    (__init__ (mkBroker (λ _, None) (mkAccount (Qc_of_Z 10000)))
       (mkTradeLedger (Qc_of_Z 0) 0) None)
    "AAPL" (-3) (Qc_of_Z 100) true
  = (true, OK).
Proof.
  apply (check_order_monotone _ "AAPL" 10 (-3) (Qc_of_Z 100) true).
  - vm_compute. discriminate.
  - lia.
  - vm_compute. reflexivity.
Defined.

(** X17: a buy that is allowed is also allowed as a sell of the same
    quantity at the same price, in any symbol. *)
Theorem buy_allowed_sell_allowed (self : SafetyCheck) (symbol symbol' : string)
    (quantity : Z) (price : Qc) :
  check_order self symbol quantity price true = (true, OK) →
  check_order self symbol' quantity price false = (true, OK).
Proof.
  intros H. apply check_order_allowed in H as (Hc & Ho & Hs & _).
  apply check_order_allowed. repeat split; try assumption; discriminate.
Qed.

Example buy_allowed_sell_allowed_witness :
  check_order
    (__init__ (mkBroker (λ _, None) (mkAccount (Qc_of_Z 10000)))
       (mkTradeLedger (Qc_of_Z 0) 0) None)
    "TSLA" 10 (Qc_of_Z 100) false
  = (true, OK).
Proof.
  apply (buy_allowed_sell_allowed _ "AAPL" "TSLA" 10 (Qc_of_Z 100)).
  vm_compute. reflexivity.
Defined.

End SafetyMore.

(** ** Backtester.run: the books of the simulation *)

Section Books.
Import models backtest backtest_spec account_spec.

(** Loops that stop at the first error. *)
Lemma fold_bind_Raise {A B : Type} (f : A → B → Result A) (l : list B) (e : exn) :
  fold_left (λ acc x, let? a := acc in f a x) l (Raise e) = Raise e.
Proof. induction l as [| x l IH]; [reflexivity | exact IH]. Qed.

Lemma fold_bind_ind {A B : Type} (f : A → B → Result A) (P : A → Prop) (l : list B) :
  (∀ a x a', x ∈ l → P a → f a x = Ok a' → P a') →
  ∀ a a', P a → fold_left (λ acc x, let? a := acc in f a x) l (Ok a) = Ok a' → P a'.
Proof.
  induction l as [| x l IH]; intros Hstep a a' Ha H.
  - injection H as <-. exact Ha.
  - cbn [fold_left bind] in H. destruct (f a x) as [a1 |] eqn:E.
    + apply (IH (λ a0 y a0' Hy, Hstep a0 y a0' (list_elem_of_further _ _ _ Hy)) a1 a');
        [| exact H].
      exact (Hstep a x a1 (list_elem_of_here _ _) Ha E).
    + rewrite fold_bind_Raise in H. discriminate H.
Qed.

(** The random walk leaves every symbol it moves at $1 or above. *)
Lemma Qc_max_floor (p : Qc) : (1 <= Qc_max p 1)%Qc.
Proof.
  unfold Qc_max. destruct (Qc_ltb p 1) eqn:E; [apply Qcle_refl |].
  apply Qc_ltb_ge, E.
Qed.

Lemma update_price_floor rnd volatility day prices s0 prices' :
  update_price rnd volatility day prices s0 = Ok prices' →
  (∀ p, prices' !! s0 = Some p → (1 <= p)%Qc)
  ∧ ∀ s, s ≠ s0 → prices' !! s = prices !! s.
Proof.
  unfold update_price, price_of. destruct (prices !! s0) as [p0 |]; [| discriminate].
  cbn [bind]. rewrite lookup_insert_eq. cbn [bind]. intros [= <-]. split.
  - intros p. rewrite lookup_insert_eq. intros [= <-]. apply Qc_max_floor.
  - intros s Hne. rewrite !lookup_insert_ne by congruence. reflexivity.
Qed.

Lemma update_prices_floor_from rnd volatility day (symbols : list string) :
  ∀ done prices prices',
    floored done prices →
    update_prices rnd volatility day symbols prices = Ok prices' →
    floored (done ++ symbols) prices'.
Proof.
  unfold update_prices.
  induction symbols as [| s0 symbols IH]; intros done prices prices' Hdone H.
  - injection H as <-. rewrite app_nil_r. exact Hdone.
  - cbn [fold_left bind] in H.
    destruct (update_price rnd volatility day prices s0) as [prices1 |] eqn:E.
    2:{ rewrite (fold_bind_Raise (λ prices s, update_price rnd volatility day prices s))
          in H. discriminate H. }
    destruct (update_price_floor _ _ _ _ _ _ E) as [Hs0 Hother].
    rewrite cons_middle, app_assoc. apply (IH (done ++ [s0]) prices1); [| exact H].
    intros s p Hs Hp. destruct (decide (s = s0)) as [-> | Hne]; [exact (Hs0 p Hp) |].
    apply elem_of_app in Hs as [Hs | Hs].
    + apply (Hdone s p Hs). rewrite <- Hother by exact Hne. exact Hp.
    + apply list_elem_of_singleton in Hs. contradiction.
Qed.

Lemma update_prices_floor rnd volatility day symbols prices prices' :
  update_prices rnd volatility day symbols prices = Ok prices' →
  floored symbols prices'.
Proof.
  intros H. apply (update_prices_floor_from rnd volatility day symbols [] prices prices');
    [| exact H].
  intros s p Hs. apply elem_of_nil in Hs. contradiction.
Qed.

(** What a rule does to the state of the simulation. *)
Lemma process_rule_effect prices date st rule st' :
  process_rule prices date st rule = Ok st' →
  st' = st
  ∨ (enabled rule = true
     ∧ ∃ p, prices !! symbol rule = Some p ∧ fires rule p = true
            ∧ execute date p st rule = Ok st').
Proof.
  unfold process_rule, price_of. destruct (enabled rule); cbn [negb].
  2:{ intros [= <-]. left. reflexivity. }
  destruct (prices !! symbol rule) as [p |]; [| discriminate]. cbn [bind].
  destruct (fires rule p) eqn:Hf.
  - intros H. right. split; [reflexivity |]. exists p. auto.
  - intros [= <-]. left. reflexivity.
Qed.

Lemma held_insert positions s qty avg :
  held (<[s := (qty, avg)]> positions) s = qty.
Proof. unfold held. rewrite lookup_insert_eq. reflexivity. Qed.

Lemma execute_effect date p st rule st' :
  execute date p st rule = Ok st' →
  st' = st
  ∨ ∃ qty,
      sim_trades st'
      = sim_trades st
        ++ [mkBacktestTrade date (symbol rule) (action_value (action rule)) qty p (id rule)]
      ∧ (∀ s, s ≠ symbol rule → positions st' !! s = positions st !! s)
      ∧ match action rule with
        | BUY =>
            qty = quantity rule
            ∧ (p * Qc_of_Z qty <= cash st)%Qc
            ∧ cash st' = (cash st - p * Qc_of_Z qty)%Qc
            ∧ held (positions st') (symbol rule)
              = held (positions st) (symbol rule) + qty
        | SELL =>
            qty = Z.min (held (positions st) (symbol rule)) (quantity rule)
            ∧ is_Some (positions st !! symbol rule)
            ∧ cash st' = (cash st + p * Qc_of_Z qty)%Qc
            ∧ held (positions st') (symbol rule)
              = held (positions st) (symbol rule) - qty
            ∧ (positions st' !! symbol rule = None ∨ 0 < held (positions st') (symbol rule))
        end.
Proof.
  unfold execute. destruct (action rule).
  - destruct (Qc_leb _ _) eqn:Hcash; [| intros [= <-]; left; reflexivity].
    apply Qc_leb_le in Hcash.
    destruct (positions st !! symbol rule) as [[old_qty old_price] |] eqn:Hpos.
    + assert (Hheld : held (positions st) (symbol rule) = old_qty)
        by (unfold held; rewrite Hpos; reflexivity).
      destruct (div _ _) as [new_avg |]; [| discriminate]. cbn [bind].
      intros [= <-]. right. exists (quantity rule).
      cbn [sim_trades positions cash action_value].
      split; [reflexivity |]. split.
      { intros s Hne. rewrite lookup_insert_ne by congruence. reflexivity. }
      rewrite held_insert, Hheld. auto.
    + assert (Hheld : held (positions st) (symbol rule) = 0)
        by (unfold held; rewrite Hpos; reflexivity).
      cbn [bind]. intros [= <-]. right. exists (quantity rule).
      cbn [sim_trades positions cash action_value].
      split; [reflexivity |]. split.
      { intros s Hne. rewrite lookup_insert_ne by congruence. reflexivity. }
      rewrite held_insert, Hheld. auto.
  - destruct (positions st !! symbol rule) as [[qty avg_price] |] eqn:Hpos;
      [| intros [= <-]; left; reflexivity].
    assert (Hheld : held (positions st) (symbol rule) = qty)
      by (unfold held; rewrite Hpos; reflexivity).
    intros [= <-]. right. exists (Z.min qty (quantity rule)).
    cbn [sim_trades positions cash action_value].
    split; [reflexivity |]. split.
    { intros s Hne. destruct (qty <=? _);
        [rewrite lookup_delete_ne | rewrite lookup_insert_ne]; congruence. }
    rewrite Hheld.
    split; [reflexivity |]. split; [eauto |]. split; [reflexivity |].
    destruct (Z.leb_spec qty (Z.min qty (quantity rule))) as [Hall | Hpart].
    + unfold held. rewrite lookup_delete_eq. split; [lia | left; reflexivity].
    + rewrite held_insert. split; [reflexivity | right; lia].
Qed.

(** Induction over a simulation: a property [P] of the state that holds
    at the start and is kept by every rule, whatever the day and the
    prices of that day, holds when the loop ends; and a property [Q] of
    the initial capital and of the equity of every state with [P] holds
    of every sample of the equity curve. *)
Lemma simulate_loop_ind (P : Sim → Prop) (Q : Qc → Prop) self rnd start_date
    (rules : list Rule) days volatility l :
  P (mkSim (bt_initial_capital self) ∅ []) →
  Q (bt_initial_capital self) →
  (∀ prices date st rule st',
     rule ∈ rules → floored (map symbol rules) prices →
     start_date <= date < start_date + days →
     P st → process_rule prices date st rule = Ok st' → P st') →
  (∀ prices st equity,
     floored (map symbol rules) prices → P st →
     equity_of prices st = Ok equity → Q equity) →
  simulate self rnd start_date rules days volatility = Ok l →
  P (sim l) ∧ Forall Q (equity_curve l).
Proof.
  intros Hinit Hcap Hstep Hequity. unfold simulate.
  apply (fold_bind_ind
           (λ l day, simulate_day rnd volatility start_date rules (symbols_of rules) l day)
           (λ l, P (sim l) ∧ Forall Q (equity_curve l)));
    [| split; [exact Hinit | repeat constructor; exact Hcap]].
  intros l0 day l1 Hday [HP HQ] Hsim. apply elem_of_seq in Hday.
  unfold simulate_day in Hsim.
  destruct (update_prices _ _ _ _ _) as [prices1 |] eqn:Hup; [| discriminate].
  cbn [bind] in Hsim.
  destruct (process_rules _ _ _ _) as [sim1 |] eqn:Hpr; [| discriminate].
  cbn [bind] in Hsim.
  destruct (equity_of _ _) as [equity |] eqn:Heq; [| discriminate].
  cbn [bind] in Hsim. injection Hsim as <-. cbn [sim equity_curve].
  assert (Hfloor : floored (map symbol rules) prices1).
  { intros s p Hs. apply (update_prices_floor _ _ _ _ _ _ Hup).
    unfold symbols_of. apply elem_of_remove_dups, Hs. }
  assert (HP1 : P sim1).
  { revert Hpr. unfold process_rules.
    apply (fold_bind_ind
             (λ st rule, process_rule prices1 (start_date + Z.of_nat day) st rule) P);
      [| exact HP].
    intros st rule st' Hrule HPst Hrun.
    apply (Hstep prices1 (start_date + Z.of_nat day) st rule st'); auto. lia. }
  split; [exact HP1 |].
  apply Forall_app. split; [exact HQ |].
  constructor; [| constructor]. exact (Hequity prices1 sim1 equity Hfloor HP1 Heq).
Qed.

Lemma simulate_sim_ind (P : Sim → Prop) self rnd start_date (rules : list Rule)
    days volatility l :
  P (mkSim (bt_initial_capital self) ∅ []) →
  (∀ prices date st rule st',
     rule ∈ rules → floored (map symbol rules) prices →
     start_date <= date < start_date + days →
     P st → process_rule prices date st rule = Ok st' → P st') →
  simulate self rnd start_date rules days volatility = Ok l →
  P (sim l).
Proof.
  intros Hinit Hstep Hsim.
  apply (simulate_loop_ind P (λ _, True) self rnd start_date rules days volatility l);
    auto.
Qed.


Lemma shares_after_snoc s log t :
  shares_after s (log ++ [t]) = shares_after s log + shares_flow s t.
Proof. unfold shares_after. rewrite fold_left_app. reflexivity. Qed.


Lemma shares_step prices date st rule st' :
  (∀ s, held (positions st) s = shares_after s (sim_trades st)) →
  process_rule prices date st rule = Ok st' →
  ∀ s, held (positions st') s = shares_after s (sim_trades st').
Proof.
  intros IH Hrun s.
  apply process_rule_effect in Hrun as [-> | (_ & p & _ & _ & Hex)]; [apply IH |].
  apply execute_effect in Hex as [-> | (qty & Hlog & Hother & Heff)]; [apply IH |].
  rewrite Hlog, shares_after_snoc, <- IH. unfold shares_flow.
  cbn [trade_symbol side trade_quantity].
  destruct (String.eqb_spec (symbol rule) s) as [<- | Hne].
  - destruct (action rule); cbn; [destruct Heff as (_ & _ & _ & ->) |
                                  destruct Heff as (_ & _ & _ & -> & _)]; lia.
  - unfold held. rewrite Hother by congruence. lia.
Qed.

(** X19: the positions of the simulation are what the trade log
    accounts for: in every symbol the quantity held is the quantity
    bought less the quantity sold. *)
Theorem positions_follow_trades self rnd start_date rules days volatility l :
  simulate self rnd start_date rules days volatility = Ok l →
  ∀ s, held (positions (sim l)) s = shares_after s (sim_trades (sim l)).
Proof.
  apply (simulate_sim_ind
           (λ st, ∀ s, held (positions st) s = shares_after s (sim_trades st)));
    [reflexivity |].
  intros prices date st rule st' _ _ _ IH Hrun. exact (shares_step _ _ _ _ _ IH Hrun).
Qed.

Lemma prefix_snoc_cases {A : Type} (k l : list A) (x : A) :
  k `prefix_of` l ++ [x] → k `prefix_of` l ∨ k = l ++ [x].
Proof.
  intros [k' Hk]. destruct k' as [| y k' _] using rev_ind.
  - right. rewrite app_nil_r in Hk. congruence.
  - left. rewrite app_assoc in Hk. apply app_inj_tail in Hk as [-> _].
    exists k'. reflexivity.
Qed.

Lemma held_positive positions :
  (∀ s q a, positions !! s = Some (q, a) → 0 < q) → ∀ s, 0 <= held positions s.
Proof.
  intros H s. unfold held. destruct (positions !! s) as [[q a] |] eqn:E; [| lia].
  specialize (H s q a E). lia.
Qed.

(** X20: with rules of positive quantities the simulation never sells
    short: every trade of the log moves a positive quantity, and at no
    point of the log have more shares of a symbol been sold than
    bought; every position held at the end is positive. *)
Theorem never_sells_short self rnd start_date (rules : list Rule) days volatility l :
  (∀ r, r ∈ rules → 0 < quantity r) →
  simulate self rnd start_date rules days volatility = Ok l →
  (∀ t, t ∈ sim_trades (sim l) → 0 < trade_quantity t)
  ∧ (∀ log s, log `prefix_of` sim_trades (sim l) → 0 <= shares_after s log)
  ∧ (∀ s q a, positions (sim l) !! s = Some (q, a) → 0 < q).
Proof.
  intros Hq Hsim.
  cut ((∀ s, held (positions (sim l)) s = shares_after s (sim_trades (sim l)))
       ∧ (∀ s q a, positions (sim l) !! s = Some (q, a) → 0 < q)
       ∧ (∀ t, t ∈ sim_trades (sim l) → 0 < trade_quantity t)
       ∧ (∀ log s, log `prefix_of` sim_trades (sim l) → 0 <= shares_after s log)).
  { intros (_ & H1 & H2 & H3). auto. }
  revert Hsim.
  apply (simulate_sim_ind
           (λ st, (∀ s, held (positions st) s = shares_after s (sim_trades st))
                  ∧ (∀ s q a, positions st !! s = Some (q, a) → 0 < q)
                  ∧ (∀ t, t ∈ sim_trades st → 0 < trade_quantity t)
                  ∧ (∀ log s, log `prefix_of` sim_trades st → 0 <= shares_after s log))).
  { split; [reflexivity |]. split; [intros s q a H; discriminate H |].
    split; [intros t H; apply elem_of_nil in H; contradiction |].
    intros log s H. apply prefix_nil_inv in H as ->. reflexivity. }
  intros prices date st rule st' Hrule _ _ (Hbook & Hpos & Hqty & Hpre) Hrun.
  pose proof (shares_step _ _ _ _ _ Hbook Hrun) as Hbook'.
  split; [exact Hbook' |].
  apply process_rule_effect in Hrun as [-> | (_ & p & _ & _ & Hex)]; [auto |].
  apply execute_effect in Hex as [-> | (qty & Hlog & Hother & Heff)]; [auto |].
  pose proof (held_positive _ Hpos (symbol rule)) as Hheld.
  specialize (Hq rule Hrule).
  assert (Hpos' : ∀ s q a, positions st' !! s = Some (q, a) → 0 < q).
  { intros s q a Hs. destruct (decide (s = symbol rule)) as [-> | Hne].
    - assert (Hq' : held (positions st') (symbol rule) = q)
        by (unfold held; rewrite Hs; reflexivity).
      destruct (action rule).
      + destruct Heff as (-> & _ & _ & Heq). lia.
      + destruct Heff as (_ & _ & _ & _ & [Hnone | Hsome]); [congruence | lia].
    - rewrite Hother in Hs by exact Hne. exact (Hpos s q a Hs). }
  split; [exact Hpos' |]. split.
  - intros t Ht. rewrite Hlog in Ht. apply elem_of_app in Ht as [Ht | Ht]; [auto |].
    apply list_elem_of_singleton in Ht as ->. cbn [trade_quantity].
    destruct (action rule).
    + destruct Heff as (-> & _). exact Hq.
    + destruct Heff as (-> & [[q a] Hsome] & _).
      assert (Hh : held (positions st) (symbol rule) = q)
        by (unfold held; rewrite Hsome; reflexivity).
      specialize (Hpos _ _ _ Hsome). lia.
  - intros log s Hlog'. rewrite Hlog in Hlog'.
    apply prefix_snoc_cases in Hlog' as [Hlog' | ->]; [auto |].
    rewrite <- Hlog, <- Hbook'. apply held_positive, Hpos'.
Qed.

(** X21: every trade of a result is a fill of one of the rules given
    to [run]: an enabled rule whose price condition held at the price of
    the trade, with its symbol, id and side, and its quantity (at most
    its quantity for a sell).  The trade is dated within the simulated
    days and its price is at the floor of $1 or above. *)
Theorem trades_come_from_rules self rnd now0 now1 (rules : list Rule) days volatility
    res rules' :
  run self rnd now0 now1 rules days volatility = Ok (res, rules') →
  ∀ t, t ∈ trades res →
    ∃ rule, rule ∈ rules ∧ fill_of rule t
            ∧ now0 - days <= timestamp t < now0
            ∧ (1 <= price t)%Qc.
Proof.
  intros Hrun. apply run_inv in Hrun as (_ & _ & l & Hsim & -> & _).
  revert Hsim.
  apply (simulate_sim_ind
           (λ st, ∀ t, t ∈ sim_trades st →
                    ∃ rule, rule ∈ rules ∧ fill_of rule t
                            ∧ now0 - days <= timestamp t < now0
                            ∧ (1 <= price t)%Qc)).
  { intros t H. apply elem_of_nil in H. contradiction. }
  intros prices date st rule st' Hrule Hfloor Hdate IH Hrun t Ht.
  apply process_rule_effect in Hrun as [-> | (Hen & p & Hp & Hf & Hex)]; [auto |].
  apply execute_effect in Hex as [-> | (qty & Hlog & _ & Heff)]; [auto |].
  rewrite Hlog in Ht. apply elem_of_app in Ht as [Ht | Ht]; [auto |].
  apply list_elem_of_singleton in Ht as ->.
  exists rule. split; [exact Hrule |]. split.
  - unfold fill_of. cbn [price trade_symbol rule_id side trade_quantity].
    repeat split; try assumption.
    destruct (action rule); [tauto |]. destruct Heff as (-> & _). lia.
  - cbn [timestamp price]. split; [lia |].
    apply (Hfloor (symbol rule) p); [| exact Hp].
    apply list_elem_of_fmap. exists rule. auto.
Qed.

Example trades_come_from_rules_witness :
  Forall
    (λ t, ∃ rule, rule ∈ demo.rules ∧ fill_of rule t
                  ∧ 30 - 5 <= timestamp t < 30
                  ∧ (1 <= price t)%Qc)
    (trades demo.result).
Proof.
  apply Forall_forall.
  exact (trades_come_from_rules demo.backtester demo.random 30 30 demo.rules 5
           (Q2Qc (2 # 100)) demo.result demo.rules demo_outcome).
Defined.

End Books.

(** ** Backtester.run: the figures of a result *)

Section Figures.
Import models backtest backtest_spec pairing_spec account_spec.

Lemma Qcdiv_mult_cancel (a b : Qc) : b ≠ 0%Qc → (a / b * b = a)%Qc.
Proof. intros Hb. rewrite Qcmult_comm. apply Qcmult_div_r, Hb. Qed.

Lemma Qcdiv_nonneg (a b : Qc) : (0 < b → 0 <= a → 0 <= a / b)%Qc.
Proof.
  intros Hb Ha. apply (Qcmult_lt_0_le_reg_r _ _ b Hb).
  rewrite Qcmult_0_l, Qcdiv_mult_cancel; [exact Ha |].
  intros ->. exact (Qclt_not_eq _ _ Hb eq_refl).
Qed.

Lemma Qcdiv_le_1 (a b : Qc) : (0 < b → a <= b → a / b <= 1)%Qc.
Proof.
  intros Hb Ha. apply (Qcmult_lt_0_le_reg_r _ _ b Hb).
  rewrite Qcmult_1_l, Qcdiv_mult_cancel; [exact Ha |].
  intros ->. exact (Qclt_not_eq _ _ Hb eq_refl).
Qed.


(** X22: with no day to simulate ([days] zero or negative) and a
    capital that is not zero, [run] returns at once: no trades, the final
    capital is the initial one, and return, win rate and drawdown are
    zero.  The start date still lies [days] before now. *)
Theorem run_no_days self rnd now0 now1 (rules : list Rule) days volatility :
  rules ≠ [] → days <= 0 → bt_initial_capital self ≠ 0%Qc →
  run self rnd now0 now1 rules days volatility
  = Ok (mkBacktestResult (now0 - days) now1
          (bt_initial_capital self) (bt_initial_capital self)
          0%Qc 0%Qc 0 0 0 0%Qc 0%Qc [],
        rules).
Proof.
  intros Hne Hdays Hcap. unfold run, simulate.
  destruct rules as [| r rules0]; [contradiction |].
  replace (Z.to_nat days) with 0%nat by lia.
  cbn [seq fold_left bind equity_curve sim sim_trades List.last].
  set (c := bt_initial_capital self) in *.
  assert (Hz : (c - c = 0)%Qc) by ring.
  assert (Hq : (0 / c = 0)%Qc) by (unfold Qcdiv; ring).
  rewrite Hz, (div_nonzero _ _ Hcap), Hq. cbn [bind].
  unfold pair_trades, max_drawdown_of, drawdown_step.
  cbn [fold_left fst bind]. rewrite Qc_ltb_irrefl, Hz, (div_nonzero _ _ Hcap), Hq.
  cbn [bind snd]. reflexivity.
Qed.

Example run_no_days_witness :
  run demo.backtester demo.random 30 31 demo.rules (-2) (Q2Qc (2 # 100))
  = Ok (mkBacktestResult 32 31 (Qc_of_Z 100000) (Qc_of_Z 100000)
          0%Qc 0%Qc 0 0 0 0%Qc 0%Qc [],
        demo.rules).
Proof.
  apply (run_no_days demo.backtester demo.random 30 31 demo.rules (-2) (Q2Qc (2 # 100))).
  - discriminate.
  - lia.
  - apply Qc_of_Z_nonzero. lia.
Defined.




Lemma pair_trade_bounds (acc : Z * Z * gmap string (list Qc)) (t : BacktestTrade) :
  let '(w, l, _) := acc in
  let '(w', l', _) := pair_trade acc t in
  w <= w' ∧ l <= l'
  ∧ w' + l' <= w + l + (if String.eqb (side t) "sell" then 1 else 0).
Proof.
  destruct acc as [[w l] bp]. unfold pair_trade.
  destruct (String.eqb (side t) "buy") eqn:Hbuy.
  { apply String.eqb_eq in Hbuy. rewrite Hbuy. cbn. lia. }
  destruct (String.eqb (side t) "sell"); [| lia].
  destruct (bp !! trade_symbol t) as [[| buy_price rest] |]; try lia.
  destruct (Qc_ltb buy_price (price t)); lia.
Qed.

Lemma fold_pair_trade_bounds (log : list BacktestTrade) :
  ∀ acc : Z * Z * gmap string (list Qc),
    let '(w, l, _) := acc in
    let '(w', l', _) := fold_left pair_trade log acc in
    w <= w' ∧ l <= l' ∧ w' + l' <= w + l + Z.of_nat (length (sells log)).
Proof.
  induction log as [| t log IH]; intros [[w l] bp]; [cbn; lia |].
  cbn [fold_left]. pose proof (pair_trade_bounds (w, l, bp) t) as Ht.
  destruct (pair_trade (w, l, bp) t) as [[w1 l1] bp1].
  specialize (IH (w1, l1, bp1)). cbn in IH.
  destruct (fold_left pair_trade log (w1, l1, bp1)) as [[w' l'] bp'].
  unfold sells. cbn [List.filter].
  destruct (String.eqb (side t) "sell"); cbn [length]; unfold sells in IH; lia.
Qed.

Lemma win_rate_of_range (w l : Z) :
  0 <= w → 0 <= l → (0 <= win_rate_of w l ∧ win_rate_of w l <= 1)%Qc.
Proof.
  intros Hw Hl. unfold win_rate_of.
  destruct (Z.ltb_spec 0 (w + l)) as [Hpos | _]; [| split; discriminate].
  assert (Ht : (0 < Qc_of_Z (w + l))%Qc).
  { destruct (Qcle_lt_or_eq _ _ (Qc_of_Z_le 0 (w + l) ltac:(lia))) as [H | H];
      [exact H |].
    exfalso. symmetry in H. revert H. apply Qc_of_Z_nonzero. lia. }
  split.
  - apply Qcdiv_nonneg; [exact Ht | apply (Qc_of_Z_le 0 w Hw)].
  - apply Qcdiv_le_1; [exact Ht | apply Qc_of_Z_le; lia].
Qed.

(** X24: the pairing never counts more than there is to count: the
    numbers of winning and of losing trades are not negative, together
    they are at most the number of sells, itself at most the number of
    trades, and the win rate lies between 0 and 1. *)
Theorem pairing_bounds self rnd now0 now1 (rules : list Rule) days volatility
    res rules' :
  run self rnd now0 now1 rules days volatility = Ok (res, rules') →
  0 <= winning_trades res ∧ 0 <= losing_trades res
  ∧ winning_trades res + losing_trades res <= Z.of_nat (length (sells (trades res)))
  ∧ Z.of_nat (length (sells (trades res))) <= total_trades res
  ∧ (0 <= win_rate res)%Qc ∧ (win_rate res <= 1)%Qc.
Proof.
  intros Hrun.
  apply run_inv in Hrun as (_ & _ & l & _ & _ & Htotal & Hpair & Hrate & _).
  pose proof (fold_pair_trade_bounds (trades res) (0, 0, ∅)) as Hb.
  unfold pair_trades in Hpair. cbn in Hb.
  destruct (fold_left pair_trade (trades res) (0, 0, ∅)) as [[w' l'] bp'].
  cbn in Hpair. injection Hpair as Hw' Hl'.
  destruct Hb as (Hw & Hl & Hsum).
  destruct (win_rate_of_range _ _ Hw Hl) as [Hr0 Hr1].
  rewrite Hrate, Htotal, Hw', Hl'. repeat split; try assumption; try lia.
  apply Nat2Z.inj_le. unfold sells. apply filter_length_le.
Qed.

Example pairing_bounds_witness :
  0 <= winning_trades demo.result ∧ 0 <= losing_trades demo.result
  ∧ winning_trades demo.result + losing_trades demo.result
    <= Z.of_nat (length (sells (trades demo.result)))
  ∧ Z.of_nat (length (sells (trades demo.result))) <= total_trades demo.result
  ∧ (0 <= win_rate demo.result)%Qc ∧ (win_rate demo.result <= 1)%Qc.
Proof.
  exact (pairing_bounds demo.backtester demo.random 30 30 demo.rules 5
           (Q2Qc (2 # 100)) demo.result demo.rules demo_outcome).
Defined.








Lemma demo_valid : ∀ r, r ∈ demo.rules → 0 < quantity r.
Proof.
  intros r Hr. unfold demo.rules in Hr.
  repeat (apply elem_of_cons in Hr as [-> | Hr]; [cbn; lia |]).
  apply elem_of_nil in Hr. contradiction.
Qed.





(** The scenario, as the simulation leaves it. *)
Lemma demo_state :
  ∃ l, simulate demo.backtester demo.random (30 - 5) demo.rules 5 (Q2Qc (2 # 100)) = Ok l
       ∧ trades demo.result = sim_trades (sim l).
Proof.
  destruct (run_inv _ _ _ _ _ _ _ _ _ demo_outcome) as (_ & _ & l & Hsim & Htrades & _).
  exists l. auto.
Defined.


Example positions_follow_trades_witness :
  ∃ l, simulate demo.backtester demo.random (30 - 5) demo.rules 5 (Q2Qc (2 # 100)) = Ok l
       ∧ ∀ s, held (positions (sim l)) s = shares_after s (trades demo.result).
Proof.
  destruct demo_state as (l & Hsim & Htrades). exists l. split; [exact Hsim |].
  rewrite Htrades. exact (positions_follow_trades _ _ _ _ _ _ _ Hsim).
Defined.

Example never_sells_short_witness :
  ∃ l, simulate demo.backtester demo.random (30 - 5) demo.rules 5 (Q2Qc (2 # 100)) = Ok l
       ∧ (∀ t, t ∈ trades demo.result → 0 < trade_quantity t)
       ∧ (∀ log s, log `prefix_of` trades demo.result → 0 <= shares_after s log)
       ∧ (∀ s q a, positions (sim l) !! s = Some (q, a) → 0 < q).
Proof.
  destruct demo_state as (l & Hsim & Htrades). exists l. split; [exact Hsim |].
  rewrite Htrades.
  exact (never_sells_short _ _ _ _ _ _ _ demo_valid Hsim).
Defined.

Example run_returns_witness :
  ∃ res, run demo.backtester demo.random 30 30 demo.rules 5 (Q2Qc (2 # 100))
         = Ok (res, demo.rules).
Proof.
  apply (run_returns demo.backtester demo.random 30 30 demo.rules 5 (Q2Qc (2 # 100)));
    [discriminate | exact demo_valid | reflexivity].
Defined.

End Figures.

(** ** TradingEngine: when the loop returns *)

Section EngineMore.
Import engine engine_spec.

Lemma steps_add poll env j k st :
  steps poll env (j + k) st = steps poll env k (steps poll env j st).
Proof.
  revert st. induction j as [| j IH]; intros st; [reflexivity |].
  cbn [Nat.add steps]. apply IH.
Qed.

(** One turn of the loop that sees no stop request. *)
Lemma turn_unstopped poll env now n :
  _stop_requested env now = false →
  _stop_requested env (now + cycle_time env n) = false →
  ∃ k, (3 <= k <= 4)%nat
       ∧ steps poll env k (AtWhile now n)
         = AtWhile (now + Z.max poll (cycle_time env n)) (S n).
Proof.
  intros H0 H1.
  destruct (Z.ltb_spec 0 (Z.max 0 (poll - (now + cycle_time env n - now)))) as [Hs | Hs].
  - exists 4%nat. split; [lia |]. cbn [steps step]. rewrite H0. cbn [negb step].
    apply Z.ltb_lt in Hs. rewrite Hs, H1. cbn [negb andb step]. f_equal. lia.
  - exists 3%nat. split; [lia |]. cbn [steps step]. rewrite H0. cbn [negb step].
    apply Z.ltb_ge in Hs. rewrite Hs. cbn [andb]. f_equal. lia.
Qed.

(** One turn of the loop during whose cycle a stop is requested. *)
Lemma turn_stopped poll env now n :
  _stop_requested env now = false →
  _stop_requested env (now + cycle_time env n) = true →
  steps poll env 4 (AtWhile now n) = Returned (now + cycle_time env n).
Proof.
  intros H0 H1. cbn [steps step]. rewrite H0. cbn [negb step].
  rewrite H1. cbn [negb]. rewrite andb_false_r. cbn [step]. rewrite H1. reflexivity.
Qed.

(** X28: the loop returns only on a stop request: when [_run_loop]
    has returned, [stop()] had been called, at the time of the return or
    before; a loop nobody stops never returns. *)
Theorem returns_only_when_stopped (poll_interval : Z) (env : Env) (t0 now : Z) :
  reachable poll_interval env t0 (Returned now) →
  ∃ s, stop_at env = Some s ∧ s <= now.
Proof.
  intros [k Hk]. revert now Hk. induction k as [| k IH]; intros now Hk;
    [discriminate Hk |].
  rewrite steps_last in Hk.
  destruct (steps poll_interval env k (AtWhile t0 0))
    as [t n | c n | c t n | t d n | t] eqn:E; cbn [step] in Hk.
  - unfold _stop_requested in Hk. destruct (stop_at env) as [s |]; [| discriminate Hk].
    destruct (Z.leb_spec s t); [| discriminate Hk].
    injection Hk as <-. exists s. auto.
  - discriminate Hk.
  - destruct (_ && _); discriminate Hk.
  - discriminate Hk.
  - injection Hk as <-. exact (IH t eq_refl).
Qed.

Example returns_only_when_stopped_witness :
  ∃ s, stop_at (mkEnv (Some 30) (λ _, 1)) = Some s ∧ s <= 60.
Proof.
  apply (returns_only_when_stopped 60 (mkEnv (Some 30) (λ _, 1)) 0 60).
  exists 5%nat. reflexivity.
Defined.

(** X29: the pace of the loop.  A turn during which no stop is
    requested brings the loop back to its test after the poll interval,
    or after the time the cycle took when that is longer: the sleep makes
    up for the difference and no more. *)
Theorem loop_pace (poll_interval : Z) (env : Env) (now : Z) (n : nat) :
  _stop_requested env now = false →
  _stop_requested env (now + cycle_time env n) = false →
  ∃ k, (3 <= k <= 4)%nat
       ∧ steps poll_interval env k (AtWhile now n)
         = AtWhile (now + Z.max poll_interval (cycle_time env n)) (S n).
Proof.
  intros H0 H1.
  assert (Helapsed : now + cycle_time env n - now = cycle_time env n) by lia.
  destruct (Z.ltb_spec 0 (Z.max 0 (poll_interval - cycle_time env n))) as [Hs | Hs].
  - exists 4%nat. split; [lia |]. cbn [steps step]. rewrite H0. cbn [negb step].
    rewrite Helapsed. apply Z.ltb_lt in Hs. rewrite Hs, H1. cbn [negb andb step].
    f_equal. lia.
  - exists 3%nat. split; [lia |]. cbn [steps step]. rewrite H0. cbn [negb step].
    rewrite Helapsed. apply Z.ltb_ge in Hs. rewrite Hs. cbn [andb]. f_equal. lia.
Qed.

Example loop_pace_witness :
  ∃ k, (3 <= k <= 4)%nat
       ∧ steps 60 (mkEnv (Some 100) (λ _, 1)) k (AtWhile 0 0) = AtWhile (0 + 60) 1.
Proof.
  exact (loop_pace 60 (mkEnv (Some 100) (λ _, 1)) 0 0 eq_refl eq_refl).
Defined.

(** X30: a stop request is honoured, late but not too late.  With a
    positive poll interval and cycles that take between 0 and [bound],
    the loop entered at [t0] and stopped at [s] returns, at a time that
    is not before the stop and at most the poll interval or [bound],
    whichever is larger, after it (or at [t0], when the stop came
    first). *)
Theorem stop_is_honoured (poll_interval bound : Z) (env : Env) (t0 s : Z) :
  0 < poll_interval →
  (∀ n, 0 <= cycle_time env n <= bound) →
  stop_at env = Some s →
  ∃ k now,
    steps poll_interval env k (AtWhile t0 0) = Returned now
    ∧ s <= now ∧ t0 <= now
    ∧ now <= Z.max t0 (s + Z.max poll_interval bound).
Proof.
  intros Hpoll Hcycle Hs.
  assert (Hreq : ∀ t, _stop_requested env t = true ↔ s <= t).
  { intros t. unfold _stop_requested. rewrite Hs. apply Z.leb_le. }
  assert (Hnot : ∀ t, _stop_requested env t = false ↔ t < s).
  { intros t. unfold _stop_requested. rewrite Hs. apply Z.leb_gt. }
  cut (∀ m now n, (Z.to_nat (s - now) <= m)%nat →
         ∃ k t, steps poll_interval env k (AtWhile now n) = Returned t
                ∧ s <= t ∧ now <= t
                ∧ t <= Z.max now (s + Z.max poll_interval bound)).
  { intros H. exact (H (Z.to_nat (s - t0)) t0 0%nat (le_n _)). }
  induction m as [| m IH]; intros now n Hm.
  - exists 1%nat, now. cbn [steps step].
    replace (_stop_requested env now) with true by (symmetry; apply Hreq; lia).
    cbn [negb]. repeat split; lia.
  - destruct (_stop_requested env now) eqn:E0.
    { exists 1%nat, now. cbn [steps step]. rewrite E0. cbn [negb].
      apply Hreq in E0. repeat split; lia. }
    pose proof (Hcycle n) as Hn. pose proof (proj1 (Hnot now) E0) as Hlt.
    destruct (_stop_requested env (now + cycle_time env n)) eqn:E1.
    + exists 4%nat, (now + cycle_time env n).
      split; [exact (turn_stopped _ _ _ _ E0 E1) |].
      apply Hreq in E1. repeat split; lia.
    + destruct (turn_unstopped poll_interval env now n E0 E1) as (j & _ & Hj).
      destruct (IH (now + Z.max poll_interval (cycle_time env n)) (S n))
        as (k & t & Hk & H1 & H2 & H3); [lia |].
      exists (j + k)%nat, t. rewrite steps_add, Hj.
      split; [exact Hk |]. repeat split; lia.
Qed.

Example stop_is_honoured_witness :
  ∃ k now,
    steps 60 (mkEnv (Some 30) (λ _, 1)) k (AtWhile 0 0) = Returned now
    ∧ 30 <= now ∧ 0 <= now
    ∧ now <= Z.max 0 (30 + Z.max 60 1).
Proof.
  apply (stop_is_honoured 60 1 (mkEnv (Some 30) (λ _, 1)) 0 30);
    [lia | intros n; cbn; lia | reflexivity].
Defined.

End EngineMore.
